(** * Health risk analyzer: the backend analysis services in Rocq

    A shallow embedding of the backend of the health risk analyzer
    (surveyParser.js, guardrails.js, factorExtractor.js, riskClassifier.js,
    recommendationEngine.js, schemaValidator.js, pipeline.js and the
    analysis routes of server.js), followed by the properties of the
    natural-language specification that were checked against it and by
    further properties of the services.

    Modelling conventions.
    - A JavaScript string is a sequence of code units below 256; case
      mapping and white space follow ECMAScript on that range.
    - A JavaScript number is an exact rational, an infinity or NaN.  The
      rounding of IEEE doubles is not represented: every number the services
      compute with is an integer or a multiple of 1/100 far below 2^53.
    - A survey field holds a primitive value (undefined, null, boolean,
      number or string).  An object literal used as a table is a finite map
      on its own keys.
    - Code that can throw returns an [outcome]; [try]/[catch] is
      [try_catch].
    - A response handed to the schema validator is a JSON-like value whose
      objects keep their keys in insertion order.
    - Built-ins whose full definition is outside the repository
      (JSON.parse, Number to String for non-integers, String to Number,
      parseFloat on strings) are fields of the class [Engine]; every
      theorem holds for every engine. *)

From Stdlib Require Import ZArith QArith Qround Qabs Qminmax Lia Lqa Ascii String List Bool
  DecimalString.
From stdpp Require Import gmap strings list fin_maps sorting.

Local Open Scope string_scope.

(** ** JavaScript values and built-ins *)

Module JS.

Inductive number :=
  | NaN
  | Inf (negative : bool)
  | Fin (q : Q).

Inductive value :=
  | VUndef
  | VNull
  | VBool (b : bool)
  | VNum (n : number)
  | VStr (s : string).

(** The argument a route hands to the services: a primitive, an object with
    its own enumerable properties, or an array. *)
Inductive input :=
  | InUndef
  | InNull
  | InBool (b : bool)
  | InNum (n : number)
  | InStr (s : string)
  | InObject (props : gmap string value)
  | InArray (elems : list value).

Inductive outcome (A : Type) :=
  | Ret (a : A)
  | Throw (message : string).
Arguments Ret {A} a.
Arguments Throw {A} message.

Definition bind {A B} (m : outcome A) (k : A -> outcome B) : outcome B :=
  match m with
  | Ret a => k a
  | Throw msg => Throw msg
  end.

Definition try_catch {A} (body : outcome A) (handler : string -> outcome A) : outcome A :=
  match body with
  | Ret a => Ret a
  | Throw msg => handler msg
  end.

Notation "x <- m ;; k" := (bind m (fun x => k))
  (at level 100, m at next level, right associativity).

(** *** Numbers *)

Definition of_Z (z : Z) : number := Fin (inject_Z z).

Definition Qlt_bool (x y : Q) : bool := negb (Qle_bool y x).

(** [a < b] on numbers; false as soon as one side is NaN. *)
Definition num_lt (a b : number) : bool :=
  match a, b with
  | NaN, _ | _, NaN => false
  | Inf true, Inf true => false
  | Inf true, _ => true
  | _, Inf true => false
  | Inf false, _ => false
  | Fin _, Inf false => true
  | Fin x, Fin y => Qlt_bool x y
  end.

Definition num_gt (a b : number) : bool := num_lt b a.

(** [a >= b] on numbers. *)
Definition num_ge (a b : number) : bool :=
  match a, b with
  | NaN, _ | _, NaN => false
  | _, Inf true => true
  | Inf true, _ => false
  | Inf false, _ => true
  | Fin _, Inf false => false
  | Fin x, Fin y => Qle_bool y x
  end.

Definition num_truthy (n : number) : bool :=
  match n with
  | NaN => false
  | Inf _ => true
  | Fin q => negb (Qeq_bool q 0)
  end.

Definition is_integer (q : Q) : bool := Qeq_bool q (inject_Z (Qfloor q)).

(** *** Characters and strings *)

Definition code (c : ascii) : N := N_of_ascii c.

(** WhiteSpace and LineTerminator code units below 256. *)
Definition is_space (c : ascii) : bool :=
  let n := code c in
  ((9 <=? n) && (n <=? 13) || (n =? 32) || (n =? 160))%N.

Definition is_digit (c : ascii) : bool :=
  let n := code c in ((48 <=? n) && (n <=? 57))%N.

Definition digit_value (c : ascii) : Z := Z.of_N (code c) - 48.

Definition lower_char (c : ascii) : ascii :=
  let n := code c in
  if ((65 <=? n) && (n <=? 90) || (192 <=? n) && (n <=? 222) && negb (n =? 215))%N
  then ascii_of_N (n + 32) else c.

Fixpoint toLowerCase (s : string) : string :=
  match s with
  | EmptyString => EmptyString
  | String c s' => String (lower_char c) (toLowerCase s')
  end.

Fixpoint trimStart (s : string) : string :=
  match s with
  | EmptyString => EmptyString
  | String c s' => if is_space c then trimStart s' else s
  end.

Fixpoint trimEnd (s : string) : string :=
  match s with
  | EmptyString => EmptyString
  | String c s' =>
      match trimEnd s' with
      | EmptyString => if is_space c then EmptyString else String c EmptyString
      | r => String c r
      end
  end.

Definition trim (s : string) : string := trimEnd (trimStart s).

Definition is_empty (s : string) : bool :=
  match s with EmptyString => true | _ => false end.

Definition startsWith (s p : string) : bool := String.prefix p s.

(** [s.includes(sub)] *)
Fixpoint includes (s sub : string) : bool :=
  String.prefix sub s ||
  match s with
  | EmptyString => false
  | String _ s' => includes s' sub
  end.

(** [list.includes(s)] on an array of strings. *)
Definition array_includes (l : list string) (s : string) : bool :=
  existsb (String.eqb s) l.

Definition cons_head (c : ascii) (l : list string) : list string :=
  match l with
  | [] => [String c EmptyString]
  | x :: xs => String c x :: xs
  end.

(** [s.split(sep)] for a one-character separator. *)
Fixpoint split_char (sep : ascii) (s : string) : list string :=
  match s with
  | EmptyString => [EmptyString]
  | String c s' =>
      if Ascii.eqb c sep then EmptyString :: split_char sep s'
      else cons_head c (split_char sep s')
  end.

(** The class [[:\s]] of the line scanner. *)
Definition is_sep (c : ascii) : bool := Ascii.eqb c ":" || is_space c.

(** [s.split(/[:\s]+/)]: a maximal run of separators is one cut. *)
Fixpoint split_seps_from (in_run : bool) (s : string) : list string :=
  match s with
  | EmptyString => [EmptyString]
  | String c s' =>
      if is_sep c then
        if in_run then split_seps_from true s'
        else EmptyString :: split_seps_from true s'
      else cons_head c (split_seps_from false s')
  end.

Definition split_seps (s : string) : list string := split_seps_from false s.

(** [parts.pop()] on a non-empty array. *)
Definition pop (parts : list string) : string := List.last parts EmptyString.

(** [parts.join(' ')] *)
Definition join_space (parts : list string) : string := String.concat " " parts.

Fixpoint take_while (p : ascii -> bool) (s : string) : string :=
  match s with
  | EmptyString => EmptyString
  | String c s' => if p c then String c (take_while p s') else EmptyString
  end.

Fixpoint drop_while (p : ascii -> bool) (s : string) : string :=
  match s with
  | EmptyString => EmptyString
  | String c s' => if p c then drop_while p s' else s
  end.

Fixpoint strip_prefix (p s : string) : option string :=
  match p, s with
  | EmptyString, _ => Some s
  | String a p', String b s' => if Ascii.eqb a b then strip_prefix p' s' else None
  | String _ _, EmptyString => None
  end.

(** A match of [/kw[:\s]+(C+)/] anchored at the start of [s], where the
    class [C] shares no character with [[:\s]]; the result is the group. *)
Definition match_here (kw : string) (cls : ascii -> bool) (s : string) : option string :=
  match strip_prefix kw s with
  | None => None
  | Some r =>
      match r with
      | EmptyString => None
      | String c _ =>
          if is_sep c then
            let g := take_while cls (drop_while is_sep r) in
            if is_empty g then None else Some g
          else None
      end
  end.

(** [s.match(/kw[:\s]+(C+)/)]: the leftmost match. *)
Fixpoint regex_group (kw : string) (cls : ascii -> bool) (s : string) : option string :=
  match match_here kw cls s with
  | Some g => Some g
  | None =>
      match s with
      | EmptyString => None
      | String _ s' => regex_group kw cls s'
      end
  end.

Definition is_digit_or_dot (c : ascii) : bool := is_digit c || Ascii.eqb c ".".

(** *** parseInt with radix 10 *)

Fixpoint digits_from (acc : Z) (s : string) : Z :=
  match s with
  | EmptyString => acc
  | String c s' => if is_digit c then digits_from (10 * acc + digit_value c) s' else acc
  end.

Definition parseInt_string (s : string) : number :=
  let s1 := trimStart s in
  let '(neg, s2) :=
    match s1 with
    | String "-" r => (true, r)
    | String "+" r => (false, r)
    | _ => (false, s1)
    end in
  match s2 with
  | EmptyString => NaN
  | String c _ =>
      if is_digit c then
        let z := digits_from 0 s2 in of_Z (if neg then - z else z)
      else NaN
  end.

(** *** Built-ins left to the engine *)

Class Engine := {
  (** [JSON.parse(text)]; throws a SyntaxError on malformed text. *)
  JSON_parse : string -> outcome input;
  (** Number::toString on a finite number that is not an integer below 10^21. *)
  number_to_string : Q -> string;
  (** ToNumber on a string. *)
  string_to_number : string -> number;
  (** [parseFloat] on a string. *)
  parseFloat_string : string -> number;
}.

Section Conversions.
Context {engine : Engine}.

Definition Number_toString (n : number) : string :=
  match n with
  | NaN => "NaN"
  | Inf false => "Infinity"
  | Inf true => "-Infinity"
  | Fin q =>
      if is_integer q && Qlt_bool (Qabs q) (inject_Z (10 ^ 21))
      then NilZero.string_of_int (Z.to_int (Qfloor q))
      else number_to_string q
  end.

(** [String(v)] *)
Definition ToString (v : value) : string :=
  match v with
  | VUndef => "undefined"
  | VNull => "null"
  | VBool true => "true"
  | VBool false => "false"
  | VNum n => Number_toString n
  | VStr s => s
  end.

(** ToNumber, as the relational operators apply it. *)
Definition ToNumber (v : value) : number :=
  match v with
  | VUndef => NaN
  | VNull => of_Z 0
  | VBool true => of_Z 1
  | VBool false => of_Z 0
  | VNum n => n
  | VStr s => string_to_number s
  end.

(** [v < k] and [v > k] for a numeric literal [k]. *)
Definition lt_num (v : value) (k : Z) : bool := num_lt (ToNumber v) (of_Z k).
Definition gt_num (v : value) (k : Z) : bool := num_gt (ToNumber v) (of_Z k).
Definition ge_num (v : value) (k : Z) : bool := num_ge (ToNumber v) (of_Z k).

(** [parseInt(v, 10)] *)
Definition parseInt (v : value) : number := parseInt_string (ToString v).

(** [parseFloat(v)] *)
Definition parseFloat (v : value) : number := parseFloat_string (ToString v).

End Conversions.

Definition truthy (v : value) : bool :=
  match v with
  | VUndef | VNull => false
  | VBool b => b
  | VNum n => num_truthy n
  | VStr s => negb (is_empty s)
  end.

(** [a || b] *)
Definition js_or (a b : value) : value := if truthy a then a else b.

Definition is_undefined (v : value) : bool :=
  match v with VUndef => true | _ => false end.
Definition is_null (v : value) : bool :=
  match v with VNull => true | _ => false end.
Definition is_nullish (v : value) : bool := is_undefined v || is_null v.
Definition is_number (v : value) : bool :=
  match v with VNum _ => true | _ => false end.
Definition is_string (v : value) : bool :=
  match v with VStr _ => true | _ => false end.

(** [v === true] and [v === 'text'] *)
Definition is_true (v : value) : bool :=
  match v with VBool true => true | _ => false end.
Definition str_eq (v : value) (s : string) : bool :=
  match v with VStr t => String.eqb t s | _ => false end.

(** [obj.key] on an object held as a finite map: a missing key reads as
    undefined. *)
Definition get (obj : gmap string value) (key : string) : value :=
  default VUndef (obj !! key).

(** [Object.keys(obj).filter(k => p(obj[k])).length] and
    [Object.values(obj).filter(p).length] *)
Definition count_values (p : value -> bool) (obj : gmap string value) : nat :=
  length (List.filter (fun kv : string * value => p kv.2) (map_to_list obj)).

(** [v?.toLowerCase()]: undefined on a nullish receiver, a TypeError on a
    receiver that is not a string. *)
Definition opt_toLowerCase (v : value) : outcome value :=
  match v with
  | VUndef | VNull => Ret VUndef
  | VStr s => Ret (VStr (toLowerCase s))
  | _ => Throw "toLowerCase is not a function"
  end.

(** [parseFloat(q.toFixed(2))]: the nearest multiple of 1/100, a tie going
    away from zero. *)
Definition toFixed2 (q : Q) : Q :=
  let r := (Qfloor (Qabs q * 100 + 0.5) # 100)%Q in
  if Qlt_bool q 0 then (- r)%Q else r.

Definition clamp01 (q : Q) : Q := Qmax 0 (Qmin 1 q).

(** An engine whose JSON.parse rejects every text and whose conversions
    give NaN; it serves to run the services on inputs that reach none of the
    engine's built-ins. *)
Definition strict_engine : Engine :=
  {| JSON_parse := fun _ => Throw "Unexpected token";
     number_to_string := fun _ => "NaN";
     string_to_number := fun _ => NaN;
     parseFloat_string := fun _ => NaN |}.

End JS.

(** ** surveyParser.js *)

Module SurveyParser.
Import JS.

Definition EXPECTED_FIELDS : list string :=
  ["age"; "smoker"; "exercise"; "diet"; "alcohol"; "sleep"; "stress"; "bmi"].
Definition CORE_FIELDS : list string := ["age"; "smoker"; "exercise"; "diet"].

Record ParseResult := {
  answers : gmap string value;
  missing_fields : list string;
  confidence : Q;
  error : option string;
}.

Definition normalizeBoolean (v : value) : value :=
  match v with
  | VBool b => VBool b
  | VStr s =>
      let lower := trim (toLowerCase s) in
      if array_includes ["yes"; "true"; "y"; "1"; "yeah"; "yep"] lower then VBool true
      else if array_includes ["no"; "false"; "n"; "0"; "nope"; "never"] lower then VBool false
      else VNull
  | _ => VNull
  end.

Section WithEngine.
Context {engine : Engine}.

Definition normalizeExercise (v : value) : value :=
  if negb (truthy v) then VNull
  else
    let lower := trim (toLowerCase (ToString v)) in
    if array_includes ["never"; "none"; "rarely"; "sedentary"; "no"] lower then VStr "rarely"
    else if array_includes ["sometimes"; "occasional"; "moderate"; "1-2 times"; "1-2x"; "weekly"] lower
    then VStr "sometimes"
    else if array_includes ["often"; "regular"; "regularly"; "frequent"; "3-4 times"; "3-4x"; "daily"] lower
    then VStr "regularly"
    else VStr lower.

Definition normalizeDiet (v : value) : value :=
  if negb (truthy v) then VNull
  else
    let lower := trim (toLowerCase (ToString v)) in
    if includes lower "high sugar" || includes lower "junk" || includes lower "fast food"
       || includes lower "unhealthy"
    then VStr "high sugar"
    else if includes lower "balanced" || includes lower "normal" || includes lower "mixed"
    then VStr "balanced"
    else if includes lower "healthy" || includes lower "vegetable" || includes lower "fruit"
            || includes lower "whole"
    then VStr "healthy"
    else VStr lower.

(** [rawAnswers.key]: reading a property of null or undefined throws; a
    boolean, a number, a string and an array have none of the survey keys. *)
Definition raw_get (raw : input) (key : string) : outcome value :=
  match raw with
  | InUndef => Throw ("Cannot read properties of undefined (reading '" ++ key ++ "')")
  | InNull => Throw ("Cannot read properties of null (reading '" ++ key ++ "')")
  | InObject props => Ret (get props key)
  | _ => Ret VUndef
  end.

(** [if (rawAnswers.key !== undefined) answers.key = f(rawAnswers.key)] *)
Definition set_if_defined (raw : input) (key : string) (f : value -> value)
    (acc : gmap string value) : outcome (gmap string value) :=
  v <- raw_get raw key ;;
  Ret (if is_undefined v then acc else <[key := f v]> acc).

Definition normalizeAlcohol (v : value) : value :=
  let val := toLowerCase (ToString v) in
  if includes val "heavy" || includes val "frequent" then VStr "heavy"
  else if includes val "moderate" || includes val "social" then VStr "moderate"
  else if includes val "rarely" || includes val "never" || includes val "none" then VStr "rarely"
  else VStr val.

Definition parseJsonInput (inp : input) : outcome (gmap string value) :=
  rawAnswers <- match inp with InStr s => JSON_parse s | _ => Ret inp end ;;
  a <- set_if_defined rawAnswers "age" (fun v => js_or (VNum (parseInt v)) VNull) ∅ ;;
  a <- set_if_defined rawAnswers "smoker" normalizeBoolean a ;;
  a <- set_if_defined rawAnswers "exercise" normalizeExercise a ;;
  a <- set_if_defined rawAnswers "diet" normalizeDiet a ;;
  a <- set_if_defined rawAnswers "alcohol" normalizeAlcohol a ;;
  a <- set_if_defined rawAnswers "sleep" (fun v => js_or (VNum (parseInt v)) v) a ;;
  a <- set_if_defined rawAnswers "stress" (fun v => VStr (toLowerCase (ToString v))) a ;;
  a <- set_if_defined rawAnswers "bmi" (fun v => js_or (VNum (parseFloat v)) VNull) a ;;
  Ret a.

(** One iteration of the loop over the lines of an OCR text. *)
Definition parseOcrLine (acc : gmap string value) (line : string) : gmap string value :=
  let lower := toLowerCase line in
  let a := match regex_group "age" is_digit lower with
           | Some g => <["age" := VNum (parseInt_string g)]> acc
           | None => acc
           end in
  let a := if includes lower "smoker" || includes lower "smoking"
           then <["smoker" := normalizeBoolean (VStr (pop (split_seps line)))]> a else a in
  let a := if includes lower "exercise" || includes lower "activity" || includes lower "workout"
           then <["exercise" := normalizeExercise (VStr (pop (split_seps line)))]> a else a in
  let a := if includes lower "diet" || includes lower "eating" || includes lower "food"
           then
             let parts := split_seps line in
             let value := join_space (tail parts) in
             <["diet" := js_or (normalizeDiet (VStr value)) (normalizeDiet (VStr (pop parts)))]> a
           else a in
  let a := if includes lower "alcohol" || includes lower "drinking"
           then <["alcohol" := VStr (toLowerCase (pop (split_seps line)))]> a else a in
  let a := match regex_group "sleep" is_digit lower with
           | Some g => <["sleep" := VNum (parseInt_string g)]> a
           | None => a
           end in
  let a := if includes lower "stress"
           then <["stress" := VStr (toLowerCase (pop (split_seps line)))]> a else a in
  let a := match regex_group "bmi" is_digit_or_dot lower with
           | Some g => <["bmi" := VNum (parseFloat_string g)]> a
           | None => a
           end in
  a.

(** [text.split('\n').map(l => l.trim()).filter(l => l)] *)
Definition ocr_lines (text : string) : list string :=
  List.filter (fun l => negb (is_empty l)) (List.map trim (split_char "010" text)).

Definition parseOcrText (text : input) : outcome (gmap string value) :=
  match text with
  | InStr s => Ret (fold_left parseOcrLine (ocr_lines s) ∅)
  | InUndef => Throw "Cannot read properties of undefined (reading 'split')"
  | InNull => Throw "Cannot read properties of null (reading 'split')"
  | _ => Throw "text.split is not a function"
  end.

End WithEngine.

(** [answers[k] !== null && answers[k] !== undefined] *)
Definition is_parsed (v : value) : bool := negb (is_nullish v).

Definition calculateConfidence (ans : gmap string value) (isOcr : bool) : Q :=
  let confidence := 1.0%Q in
  let confidence := if isOcr then (confidence - 0.1)%Q else confidence in
  let coreFieldsPresent :=
    length (List.filter (fun f => is_parsed (get ans f)) CORE_FIELDS) in
  let confidence :=
    (confidence - inject_Z (Z.of_nat (length CORE_FIELDS - coreFieldsPresent)) * 0.05)%Q in
  let nullCount := count_values is_null ans in
  let confidence := (confidence - inject_Z (Z.of_nat nullCount) * 0.02)%Q in
  clamp01 (toFixed2 confidence).

Definition getMissingFields (ans : gmap string value) : list string :=
  List.filter (fun f => is_nullish (get ans f)) CORE_FIELDS.

Section WithEngine.
Context {engine : Engine}.

(** The body of the [try] block of [parseSurvey]. *)
Definition parse_attempt (inp : input) (isOcr : bool) : outcome (gmap string value) :=
  if isOcr then parseOcrText inp
  else match inp with
       | InStr _ => try_catch (parseJsonInput inp) (fun _ => parseOcrText inp)
       | _ => parseJsonInput inp
       end.

Definition parseSurvey (inp : input) (isOcr : bool) : outcome ParseResult :=
  match parse_attempt inp isOcr with
  | Throw msg =>
      Ret {| answers := ∅;
             missing_fields := CORE_FIELDS;
             confidence := 0;
             error := Some ("Failed to parse input: " ++ msg) |}
  | Ret ans =>
      let missingFields := getMissingFields ans in
      let conf := calculateConfidence ans isOcr in
      Ret {| answers := ans;
             missing_fields := missingFields;
             confidence := conf;
             error := None |}
  end.

End WithEngine.
End SurveyParser.


(** ** guardrails.js *)

Module Guardrails.
Import JS SurveyParser.

Module CONFIG.
Definition MIN_CONFIDENCE : Q := 0.3.
Definition MAX_MISSING_PERCENTAGE : Q := 0.5.
Definition AGE_MIN : Z := 0.
Definition AGE_MAX : Z := 150.
Definition BMI_MIN : Z := 10.
Definition BMI_MAX : Z := 100.
Definition SLEEP_MIN : Z := 0.
Definition SLEEP_MAX : Z := 24.
End CONFIG.

Record Warning := {
  warning_type : string;
  warning_message : string;
}.

(** The object a guard returns; a property the guard leaves out is [None]. *)
Record Check := {
  isValid : bool;
  status : option string;
  reason : option string;
  check_missing_fields : option (list string);
  warnings : list Warning;
}.

Record Correction := {
  field : string;
  action : string;
  original : value;
}.

Record RangeValidation := {
  range_isValid : bool;
  correctedAnswers : gmap string value;
  corrections : list Correction;
}.

Record OcrCheck := {
  ocr_isValid : bool;
  ocr_reason : option string;
  ocr_warnings : list Warning;
  keywordsFound : list string;
}.

Definition string_of_Z (z : Z) : string := NilZero.string_of_int (Z.to_int z).

(** [q.toFixed(0)] *)
Definition toFixed0 (q : Q) : string :=
  let digits := string_of_Z (Qfloor (Qabs q + 0.5)) in
  if Qlt_bool q 0 then "-" ++ digits else digits.

(** [Math.round(q)] *)
Definition Math_round (q : Q) : Z := Qfloor (q + 0.5).

Section WithEngine.
Context {engine : Engine}.

Definition generateWarnings (parseResult : ParseResult) : list Warning :=
  let ans := answers parseResult in
  let w1 :=
    if (0 <? length (missing_fields parseResult))%nat then
      [{| warning_type := "missing_fields";
          warning_message := "Some fields are missing: "
            ++ String.concat ", " (missing_fields parseResult)
            ++ ". Results may be less accurate." |}]
    else [] in
  let w2 :=
    if Qlt_bool (confidence parseResult) 0.8 then
      [{| warning_type := "low_confidence";
          warning_message := "Some answers could not be parsed with high confidence." |}]
    else [] in
  let age := get ans "age" in
  let w3 :=
    if negb (is_undefined age) && (lt_num age 18 || gt_num age 100) then
      [{| warning_type := "unusual_value";
          warning_message := "Age value (" ++ ToString age
            ++ ") is outside typical range (18-100)." |}]
    else [] in
  let bmi := get ans "bmi" in
  let w4 :=
    if negb (is_undefined bmi) && (lt_num bmi 15 || gt_num bmi 50) then
      [{| warning_type := "unusual_value";
          warning_message := "BMI value (" ++ ToString bmi
            ++ ") is outside typical range (15-50)." |}]
    else [] in
  (w1 ++ w2 ++ w3 ++ w4)%list.

(** [if (parseResult.error)]: an error message that is not empty. *)
Definition has_error (parseResult : ParseResult) : bool :=
  match error parseResult with
  | Some msg => negb (is_empty msg)
  | None => false
  end.

Definition checkProfileCompleteness (parseResult : ParseResult) : Check :=
  match has_error parseResult with
  | true =>
      {| isValid := false; status := Some "parse_error"; reason := error parseResult;
         check_missing_fields := None; warnings := [] |}
  | false =>
      if Qlt_bool (confidence parseResult) CONFIG.MIN_CONFIDENCE then
        {| isValid := false; status := Some "low_confidence";
           reason := Some ("Confidence too low ("
                           ++ toFixed0 (confidence parseResult * 100)
                           ++ "%). Cannot reliably process input.");
           check_missing_fields := None; warnings := [] |}
      else
        let missingPercentage :=
          (inject_Z (Z.of_nat (length (missing_fields parseResult)))
           / inject_Z (Z.of_nat (length CORE_FIELDS)))%Q in
        if Qlt_bool CONFIG.MAX_MISSING_PERCENTAGE missingPercentage then
          {| isValid := false; status := Some "incomplete_profile";
             reason := Some (">" ++ string_of_Z (Math_round (CONFIG.MAX_MISSING_PERCENTAGE * 100))
                             ++ "% fields missing");
             check_missing_fields := Some (missing_fields parseResult);
             warnings := [] |}
        else
          let answeredFields := count_values is_parsed (answers parseResult) in
          if (answeredFields =? 0)%nat then
            {| isValid := false; status := Some "no_data";
               reason := Some "No valid survey data found";
               check_missing_fields := None; warnings := [] |}
          else
            {| isValid := true; status := Some "ok"; reason := None;
               check_missing_fields := None;
               warnings := generateWarnings parseResult |}
  end.

Definition invalid (st rsn : string) : Check :=
  {| isValid := false; status := Some st; reason := Some rsn;
     check_missing_fields := None; warnings := [] |}.

Definition valid_input : Check :=
  {| isValid := true; status := None; reason := None;
     check_missing_fields := None; warnings := [] |}.

Definition validateInput (inp : input) : Check :=
  match inp with
  | InNull | InUndef => invalid "invalid_input" "Input is null or undefined"
  | InStr s =>
      let trimmed := trim s in
      if (String.length trimmed =? 0)%nat then invalid "empty_input" "Input is empty"
      else if startsWith trimmed "{" then
        match JSON_parse trimmed with
        | Throw msg => invalid "invalid_json" ("Invalid JSON format: " ++ msg)
        | Ret _ => valid_input
        end
      else valid_input
  | InObject props =>
      if (size props =? 0)%nat then invalid "empty_input" "Input object is empty"
      else valid_input
  | InArray _ => invalid "invalid_input" "Input cannot be an array. Expected object or string."
  | InBool _ | InNum _ => valid_input
  end.

(** The clamp of a numeric field to [[lo, hi]]; [v] is a number here. *)
Definition clamp_field (name : string) (lo hi : Z) (v : value)
    (acc : gmap string value * list Correction) : gmap string value * list Correction :=
  let '(a, cs) := acc in
  if lt_num v lo then
    (<[name := VNum (of_Z lo)]> a,
     (cs ++ [{| field := name; action := "clamped_to_min"; original := v |}])%list)
  else if gt_num v hi then
    (<[name := VNum (of_Z hi)]> a,
     (cs ++ [{| field := name; action := "clamped_to_max"; original := v |}])%list)
  else (a, cs).

(** The age and bmi blocks: coercion of a non-number, then the clamp. *)
Definition coerce_and_clamp (name : string) (parse : value -> number) (lo hi : Z)
    (ans : gmap string value)
    (acc : gmap string value * list Correction) : gmap string value * list Correction :=
  let '(a, cs) := acc in
  let v := get a name in
  if is_nullish v then (a, cs)
  else
    let '(v1, a1, cs1) :=
      if negb (is_number v) then
        let c := js_or (VNum (parse v)) VNull in
        (c, <[name := c]> a,
         if negb (is_null c)
         then (cs ++ [{| field := name; action := "type_conversion";
                         original := get ans name |}])%list
         else cs)
      else (v, a, cs) in
    if negb (is_null v1) then clamp_field name lo hi v1 (a1, cs1) else (a1, cs1).

Definition clamp_sleep (acc : gmap string value * list Correction)
    : gmap string value * list Correction :=
  let v := get acc.1 "sleep" in
  if negb (is_nullish v) && is_number v
  then clamp_field "sleep" CONFIG.SLEEP_MIN CONFIG.SLEEP_MAX v acc
  else acc.

Definition normalize_smoker (ans : gmap string value)
    (acc : gmap string value * list Correction) : gmap string value * list Correction :=
  let '(a, cs) := acc in
  match get a "smoker" with
  | VStr s =>
      let lower := toLowerCase s in
      if array_includes ["yes"; "true"; "1"; "y"] lower then
        (<["smoker" := VBool true]> a,
         (cs ++ [{| field := "smoker"; action := "normalized_to_boolean";
                    original := get ans "smoker" |}])%list)
      else if array_includes ["no"; "false"; "0"; "n"] lower then
        (<["smoker" := VBool false]> a,
         (cs ++ [{| field := "smoker"; action := "normalized_to_boolean";
                    original := get ans "smoker" |}])%list)
      else (a, cs)
  | _ => (a, cs)
  end.

Definition validateAnswerRanges (ans : gmap string value) : RangeValidation :=
  let acc := (ans, []) in
  let acc := coerce_and_clamp "age" parseInt CONFIG.AGE_MIN CONFIG.AGE_MAX ans acc in
  let acc := coerce_and_clamp "bmi" parseFloat CONFIG.BMI_MIN CONFIG.BMI_MAX ans acc in
  let acc := clamp_sleep acc in
  let acc := normalize_smoker ans acc in
  {| range_isValid := (length acc.2 =? 0)%nat;
     correctedAnswers := acc.1;
     corrections := acc.2 |}.

End WithEngine.

(** [/[^\x00-\x7F]{5,}/.test(s)], with [k] the length of the run so far. *)
Fixpoint non_ascii_run (k : nat) (s : string) : bool :=
  match s with
  | EmptyString => false
  | String c s' =>
      if (128 <=? code c)%N
      then (4 <=? k)%nat || non_ascii_run (S k) s'
      else non_ascii_run 0 s'
  end.

Definition is_line_terminator (c : ascii) : bool :=
  ((code c =? 10) || (code c =? 13))%N.

(** [/(.)\1{5,}/.test(s)], with [k] copies of [prev] just read. *)
Fixpoint repeat_run (prev : option ascii) (k : nat) (s : string) : bool :=
  match s with
  | EmptyString => false
  | String c s' =>
      if is_line_terminator c then repeat_run None 0 s'
      else
        match prev with
        | Some p =>
            if Ascii.eqb p c then (5 <=? k)%nat || repeat_run prev (S k) s'
            else repeat_run (Some c) 1 s'
        | None => repeat_run (Some c) 1 s'
        end
  end.

Definition surveyKeywords : list string :=
  ["age"; "smoker"; "smoking"; "exercise"; "diet"; "sleep"; "stress"].

Definition validateOcrText (text : input) : OcrCheck :=
  match text with
  | InStr s =>
      if is_empty s then
        {| ocr_isValid := false; ocr_reason := Some "OCR text is empty or invalid";
           ocr_warnings := []; keywordsFound := [] |}
      else
        let trimmed := trim s in
        if (String.length trimmed <? 10)%nat then
          {| ocr_isValid := false;
             ocr_reason := Some "OCR text is too short to contain valid survey data";
             ocr_warnings := []; keywordsFound := [] |}
        else
          let w1 :=
            if non_ascii_run 0 trimmed || repeat_run None 0 trimmed then
              [{| warning_type := "ocr_artifacts";
                  warning_message := "OCR text may contain recognition artifacts" |}]
            else [] in
          let foundKeywords :=
            List.filter (fun kw => includes (toLowerCase trimmed) kw) surveyKeywords in
          let w2 :=
            if (length foundKeywords =? 0)%nat then
              [{| warning_type := "no_survey_keywords";
                  warning_message := "OCR text does not contain recognizable survey fields" |}]
            else [] in
          {| ocr_isValid := true; ocr_reason := None;
             ocr_warnings := (w1 ++ w2)%list; keywordsFound := foundKeywords |}
  | _ =>
      {| ocr_isValid := false; ocr_reason := Some "OCR text is empty or invalid";
         ocr_warnings := []; keywordsFound := [] |}
  end.

End Guardrails.

(** ** Array.prototype.sort *)

Module JSArray.

(** [arr.sort(compare)] is stable, so for a comparator that orders the
    elements by a key its result is the one stable sorted permutation; it is
    computed here by insertion.  [gt a b] stands for [compare(a, b) > 0]. *)
Section Sort.
Context {A : Type} (gt : A -> A -> bool).

Fixpoint sort_insert (x : A) (l : list A) : list A :=
  match l with
  | [] => [x]
  | y :: l' => if gt x y then y :: sort_insert x l' else x :: y :: l'
  end.

Definition sort (l : list A) : list A := fold_right sort_insert [] l.

End Sort.

(** [arr.slice(0, n)] *)
Definition slice0 {A} (n : nat) (l : list A) : list A := firstn n l.

End JSArray.

(** ** factorExtractor.js *)

Module FactorExtractor.
Import JS JSArray.

Record Rule := {
  id : string;
  check : gmap string value -> outcome bool;
  label : string;
  weight : Q;
}.

Definition lowered_in (v : value) (names : list string) : outcome bool :=
  lowered <- opt_toLowerCase v ;;
  Ret (existsb (str_eq lowered) names).

(** [Object.entries(FACTOR_RULES)], in declaration order. *)
Definition FACTOR_RULES : list Rule := [
  {| id := "smoking";
     check := fun a => Ret (is_true (get a "smoker"));
     label := "smoking"; weight := 1.0 |};
  {| id := "poor_diet";
     check := fun a => lowered_in (get a "diet") ["high sugar"; "junk"; "fast food"; "unhealthy"];
     label := "poor diet"; weight := 0.9 |};
  {| id := "low_exercise";
     check := fun a => lowered_in (get a "exercise") ["rarely"; "never"; "sedentary"; "none"];
     label := "low exercise"; weight := 0.85 |};
  {| id := "excessive_alcohol";
     check := fun a => lowered_in (get a "alcohol") ["heavy"; "frequent"; "daily"];
     label := "excessive alcohol"; weight := 0.8 |};
  {| id := "poor_sleep";
     check := fun a =>
       match get a "sleep" with
       | VNum n => Ret (num_lt n (of_Z 6) || num_gt n (of_Z 9))
       | v => lowered_in v ["poor"; "bad"; "irregular"]
       end;
     label := "poor sleep"; weight := 0.7 |};
  {| id := "high_stress";
     check := fun a => lowered_in (get a "stress") ["high"; "severe"; "chronic"];
     label := "high stress"; weight := 0.75 |};
  {| id := "obesity";
     check := fun a =>
       match get a "bmi" with
       | VNum n => Ret (num_ge n (of_Z 30))
       | _ => Ret false
       end;
     label := "obesity"; weight := 0.85 |};
  {| id := "overweight";
     check := fun a =>
       match get a "bmi" with
       | VNum n => Ret (num_ge n (of_Z 25) && num_lt n (of_Z 30))
       | _ => Ret false
       end;
     label := "overweight"; weight := 0.6 |};
  {| id := "advanced_age";
     check := fun a =>
       match get a "age" with
       | VNum n => Ret (num_ge n (of_Z 60))
       | _ => Ret false
       end;
     label := "advanced age"; weight := 0.5 |};
  {| id := "middle_age";
     check := fun a =>
       match get a "age" with
       | VNum n => Ret (num_ge n (of_Z 40) && num_lt n (of_Z 60))
       | _ => Ret false
       end;
     label := "middle age"; weight := 0.3 |}
].

Record FactorDetail := {
  detail_id : string;
  detail_label : string;
  detail_weight : Q;
}.

Record FactorResult := {
  factors : list string;
  factor_details : list FactorDetail;
  factor_confidence : Q;
}.

Definition calculateFactorConfidence (ans : gmap string value)
    (extractedFactors : list string) : Q :=
  let coreFields := ["smoker"; "diet"; "exercise"] in
  let confidence :=
    fold_left (fun c f => if is_nullish (get ans f) then (c - 0.1)%Q else c) coreFields 1.0%Q in
  let confidence :=
    if (length extractedFactors =? 0)%nat && (size ans <? 3)%nat
    then (confidence - 0.2)%Q else confidence in
  clamp01 (toFixed2 confidence).

(** One turn of the loop: a rule whose check throws is skipped. *)
Definition rule_matches (ans : gmap string value) (rule : Rule) : bool :=
  match check rule ans with
  | Ret b => b
  | Throw _ => false
  end.

(** [(a, b) => b.weight - a.weight] is positive. *)
Definition by_weight_desc (a b : FactorDetail) : bool :=
  Qlt_bool 0 (detail_weight b - detail_weight a).

(** [{ id: key, label: rule.label, weight: rule.weight }] *)
Definition detail_of (rule : Rule) : FactorDetail :=
  {| detail_id := id rule; detail_label := label rule; detail_weight := weight rule |}.

Definition extractFactors (ans : gmap string value) : FactorResult :=
  let matched := List.filter (rule_matches ans) FACTOR_RULES in
  let factors := List.map label matched in
  let factorDetails := List.map detail_of matched in
  let factorDetails := sort by_weight_desc factorDetails in
  let sortedFactors := List.map detail_label factorDetails in
  {| factors := sortedFactors;
     factor_details := factorDetails;
     factor_confidence := calculateFactorConfidence ans factors |}.

End FactorExtractor.

(** ** riskClassifier.js *)

Module RiskClassifier.
Import JS.

Definition FACTOR_SCORES : gmap string Z :=
  list_to_map [
    ("smoking", 25); ("poor diet", 18); ("low exercise", 15);
    ("excessive alcohol", 20); ("poor sleep", 10); ("high stress", 12);
    ("obesity", 20); ("overweight", 10); ("advanced age", 8); ("middle age", 4)
  ]%Z.

Record RiskResult := {
  risk_level : string;
  score : Z;
  rationale : list string;
}.

Definition getRiskLevel (score : Z) : string :=
  if (score <? 25)%Z then "low"
  else if (score <? 50)%Z then "moderate"
  else if (score <? 75)%Z then "high"
  else "very high".

(** [FACTOR_SCORES[factor] || 0] *)
Definition factorScore (factor : string) : Z := default 0%Z (FACTOR_SCORES !! factor).

Section WithEngine.
Context {engine : Engine}.

Definition getAgeBaseRisk (age : value) : Z :=
  if is_nullish age then 0
  else if lt_num age 30 then 0
  else if lt_num age 40 then 5
  else if lt_num age 50 then 10
  else if lt_num age 60 then 15
  else if lt_num age 70 then 20
  else 25.

(** The strings one factor adds to the rationale. *)
Definition rationale_of (ans : gmap string value) (factor : string) : list string :=
  if String.eqb factor "smoking" then ["smoking"]
  else if String.eqb factor "poor diet" then
    [if truthy (get ans "diet") then ToString (get ans "diet") ++ " diet"
     else "poor dietary habits"]
  else if String.eqb factor "low exercise" then
    [if str_eq (get ans "exercise") "rarely" then "low physical activity"
     else "sedentary lifestyle"]
  else if String.eqb factor "excessive alcohol" then ["high alcohol consumption"]
  else if String.eqb factor "poor sleep" then
    [if is_number (get ans "sleep")
     then "inadequate sleep (" ++ ToString (get ans "sleep") ++ " hours)"
     else "poor sleep quality"]
  else if String.eqb factor "high stress" then ["chronic stress"]
  else if String.eqb factor "obesity" then
    [if truthy (get ans "bmi") then "obesity (BMI: " ++ ToString (get ans "bmi") ++ ")"
     else "obesity"]
  else if String.eqb factor "overweight" then
    [if truthy (get ans "bmi") then "overweight (BMI: " ++ ToString (get ans "bmi") ++ ")"
     else "overweight"]
  else if String.eqb factor "advanced age" then
    ["age factor (" ++ ToString (get ans "age") ++ " years)"]
  else if String.eqb factor "middle age" then []
  else [factor].

Definition generateRationale (factors : list string) (ans : gmap string value) : list string :=
  List.concat (List.map (rationale_of ans) factors).

(** The score is a sum of integers, so [Math.round] leaves it as it is. *)
Definition classifyRisk (factors : list string) (ans : gmap string value) : RiskResult :=
  let score := 0%Z in
  let score := (score + getAgeBaseRisk (get ans "age"))%Z in
  let score := fold_left (fun s factor => (s + factorScore factor)%Z) factors score in
  let score := Z.min 100 score in
  {| risk_level := getRiskLevel score;
     score := score;
     rationale := generateRationale factors ans |}.

End WithEngine.
End RiskClassifier.

(** ** recommendationEngine.js *)

Module RecommendationEngine.
Import JS JSArray.

Record Recommendation := {
  primary : string;
  details : string;
  priority : Z;
  icon : string;
  factor : option string;
}.

Definition rec (p d : string) (prio : Z) (i : string) : Recommendation :=
  {| primary := p; details := d; priority := prio; icon := i; factor := None |}.

Definition RECOMMENDATIONS : gmap string Recommendation :=
  list_to_map [
    ("smoking", rec "Quit smoking"
       "Consider nicotine replacement therapy or consult a healthcare provider for smoking cessation programs"
       1 "cigarette-off");
    ("poor diet", rec "Improve your diet"
       "Reduce sugar intake, increase vegetables and whole grains, limit processed foods"
       2 "apple");
    ("low exercise", rec "Increase physical activity"
       "Start with 30 minutes of walking daily, gradually increase intensity"
       3 "footprints");
    ("excessive alcohol", rec "Reduce alcohol consumption"
       "Limit to moderate drinking or consider abstaining. Seek support if needed"
       2 "wine-off");
    ("poor sleep", rec "Improve sleep habits"
       "Aim for 7-8 hours of quality sleep. Maintain consistent sleep schedule"
       4 "moon");
    ("high stress", rec "Manage stress levels"
       "Practice relaxation techniques, consider meditation or yoga, take regular breaks"
       4 "brain");
    ("obesity", rec "Work towards healthy weight"
       "Consult healthcare provider for personalized weight management plan"
       2 "scale");
    ("overweight", rec "Consider weight management"
       "Focus on balanced diet and regular exercise for gradual weight loss"
       5 "scale");
    ("advanced age", rec "Regular health checkups"
       "Schedule regular screenings and preventive care appointments"
       6 "stethoscope")
  ].

Definition GENERAL_RECOMMENDATIONS : list Recommendation := [
  rec "Stay hydrated" "Drink at least 8 glasses of water daily" 7 "droplet";
  rec "Regular health checkups"
      "Schedule annual wellness visits with your healthcare provider" 8 "calendar-check"
].

Record Recommendations := {
  recommendations : list string;
  detailed_recommendations : list Recommendation;
}.

(** [{ ...rec, factor }] *)
Definition with_factor (f : string) (r : Recommendation) : Recommendation :=
  {| primary := primary r; details := details r; priority := priority r;
     icon := icon r; factor := Some f |}.

(** The first loop: one entry for each factor the table knows. *)
Definition factor_recommendations (factors : list string) : list Recommendation :=
  omap (fun f => with_factor f <$> RECOMMENDATIONS !! f) factors.

(** [(a, b) => a.priority - b.priority] is positive. *)
Definition by_priority (a b : Recommendation) : bool := (0 <? priority a - priority b)%Z.

(** One turn of the loop over the general recommendations. *)
Definition add_general (acc : list string * list Recommendation) (r : Recommendation)
    : list string * list Recommendation :=
  if negb (array_includes acc.1 (primary r))
  then ((acc.1 ++ [primary r])%list, (acc.2 ++ [r])%list)
  else acc.

Definition generateRecommendations (factors : list string) (riskLevel : string)
    : Recommendations :=
  let specific := factor_recommendations factors in
  let recommendations := List.map primary specific in
  let detailedRecommendations := sort by_priority specific in
  let acc :=
    if String.eqb riskLevel "high" || String.eqb riskLevel "very high"
    then fold_left add_general GENERAL_RECOMMENDATIONS (recommendations, detailedRecommendations)
    else (recommendations, detailedRecommendations) in
  let topRecommendations := slice0 5 acc.2 in
  {| recommendations := List.map primary topRecommendations;
     detailed_recommendations := topRecommendations |}.

End RecommendationEngine.

(** ** schemaValidator.js: the response constructors

    [validateSchema] only feeds [console.warn] in the pipeline and never
    changes a result, so the pipeline is modelled without it (the validator
    itself is [SchemaValidation] below); the [timestamp] field of a response
    is left out. *)

Module SchemaValidator.
Import JS.

Record ErrorResponse := {
  err_status : option string;
  err_reason : option string;
  err_missing_fields : option (list string);
  partial_parse : option (gmap string value * Q);
}.

Definition createErrorResponse (status reason : option string)
    (missing : option (list string)) (partial : option (gmap string value * Q))
    : ErrorResponse :=
  {| err_status := status; err_reason := reason;
     err_missing_fields := missing; partial_parse := partial |}.

End SchemaValidator.

(** ** pipeline.js *)

Module Pipeline.
Import JS SurveyParser Guardrails FactorExtractor RiskClassifier RecommendationEngine
  SchemaValidator.

Record Options := {
  isOcr : bool;
  validateSchemas : bool;
  stopOnWarning : bool;
}.

Record StepResult := {
  step : string;
  success : bool;
  step_error : option string;
}.

Definition step_success (name : string) : StepResult :=
  {| step := name; success := true; step_error := None |}.
Definition step_failure (name : string) (err : option string) : StepResult :=
  {| step := name; success := false; step_error := err |}.

(** The success payload, with [status: 'ok'] implied. *)
Record AnalysisData := {
  data_answers : gmap string value;
  data_missing_fields : list string;
  parse_confidence : Q;
  data_corrections : list Correction;
  data_factors : list string;
  data_factor_confidence : Q;
  data_factor_details : option (list FactorDetail);
  data_risk_level : string;
  data_score : Z;
  data_rationale : list string;
  data_recommendations : list string;
  data_detailed_recommendations : list Recommendation;
  data_warnings : list Warning;
  pipeline_steps : option nat;
}.

Record PipelineResult := {
  pipeline_success : bool;
  steps : list StepResult;
  data : option AnalysisData;
  pipeline_error : option ErrorResponse;
}.

Section WithEngine.
Context {engine : Engine}.

(** The stages after a parse result is at hand. *)
Definition analyse_parsed (parseResult : ParseResult) (trace : list StepResult)
    : PipelineResult :=
  let completenessCheck := checkProfileCompleteness parseResult in
  if negb (isValid completenessCheck) then
    {| pipeline_success := false;
       steps := (trace ++ [step_failure "parse" (reason completenessCheck)])%list;
       data := None;
       pipeline_error := Some (createErrorResponse
         (status completenessCheck) (reason completenessCheck)
         (Some (match check_missing_fields completenessCheck with
                | Some m => m
                | None => missing_fields parseResult
                end))
         (Some (answers parseResult, confidence parseResult))) |}
  else
    let rangeValidation := validateAnswerRanges (answers parseResult) in
    let '(ans, corr) :=
      if negb (range_isValid rangeValidation)
      then (correctedAnswers rangeValidation, corrections rangeValidation)
      else (answers parseResult, []) in
    let trace := (trace ++ [step_success "parse"])%list in
    let factorResult := extractFactors ans in
    let trace := (trace ++ [step_success "factors"])%list in
    let riskResult := classifyRisk (factors factorResult) ans in
    let trace := (trace ++ [step_success "risk"])%list in
    let recResult := generateRecommendations (factors factorResult) (risk_level riskResult) in
    let trace := (trace ++ [step_success "recommendations"])%list in
    {| pipeline_success := true;
       steps := trace;
       data := Some
         {| data_answers := ans;
            data_missing_fields := missing_fields parseResult;
            parse_confidence := confidence parseResult;
            data_corrections := corr;
            data_factors := factors factorResult;
            data_factor_confidence := factor_confidence factorResult;
            data_factor_details := Some (factor_details factorResult);
            data_risk_level := risk_level riskResult;
            data_score := score riskResult;
            data_rationale := rationale riskResult;
            data_recommendations := recommendations recResult;
            data_detailed_recommendations := detailed_recommendations recResult;
            data_warnings := warnings completenessCheck;
            pipeline_steps := Some (length trace) |};
       pipeline_error := None |}.

Definition runAnalysisPipeline (inp : input) (options : Options) : PipelineResult :=
  let inputValidation := validateInput inp in
  if negb (isValid inputValidation) then
    {| pipeline_success := false;
       steps := [step_failure "input_validation" (reason inputValidation)];
       data := None;
       pipeline_error := Some (createErrorResponse
         (status inputValidation) (reason inputValidation) None None) |}
  else
    let trace := [step_success "input_validation"] in
    match parseSurvey inp (isOcr options) with
    | Ret parseResult => analyse_parsed parseResult trace
    | Throw msg =>
        (* the [catch] at the end of the orchestrator *)
        {| pipeline_success := false;
           steps := (trace ++ [step_failure "unknown" (Some msg)])%list;
           data := None;
           pipeline_error := Some (createErrorResponse
             (Some "pipeline_error") (Some msg) None None) |}
    end.

End WithEngine.
End Pipeline.

(** ** server.js: the analysis routes *)

Module Server.
Import JS SurveyParser Guardrails FactorExtractor RiskClassifier RecommendationEngine
  SchemaValidator Pipeline.

(** [req.body] after [{ input, isOcr = false, options = {} }] is read off;
    [isOcr] is only ever tested for truth. *)
Record AnalyzeRequest := {
  req_input : input;
  req_isOcr : bool;
  req_validateSchemas : bool;
  req_stopOnWarning : bool;
}.

Inductive Body :=
  | ErrorBody (e : ErrorResponse)
  | DataBody (d : AnalysisData)
  | NoBody.

Record Response := {
  statusCode : Z;
  body : Body;
}.

Section WithEngine.
Context {engine : Engine}.

(** [POST /api/analyze] *)
Definition post_analyze (req : AnalyzeRequest) : Response :=
  let pipelineResult :=
    runAnalysisPipeline (req_input req)
      {| isOcr := req_isOcr req;
         validateSchemas := req_validateSchemas req;
         stopOnWarning := req_stopOnWarning req |} in
  if negb (pipeline_success pipelineResult) then
    let code :=
      match pipeline_error pipelineResult with
      | Some e =>
          match err_status e with
          | Some s => if String.eqb s "invalid_input" then 400%Z else 200%Z
          | None => 200%Z
          end
      | None => 200%Z
      end in
    {| statusCode := code;
       body := match pipeline_error pipelineResult with
               | Some e => ErrorBody e
               | None => NoBody
               end |}
  else
    {| statusCode := 200;
       body := match data pipelineResult with Some d => DataBody d | None => NoBody end |}.

(** [POST /api/analyze/legacy]; an exception that leaves the handler reaches
    the global error handler. *)
Definition post_analyze_legacy (req : AnalyzeRequest) : Response :=
  let inp := req_input req in
  let inputValidation := validateInput inp in
  if negb (isValid inputValidation) then
    {| statusCode := 400;
       body := ErrorBody (createErrorResponse
         (status inputValidation) (reason inputValidation) None None) |}
  else if req_isOcr req && (match inp with InStr _ => true | _ => false end)
          && negb (ocr_isValid (validateOcrText inp)) then
    {| statusCode := 400;
       body := ErrorBody (createErrorResponse
         (Some "invalid_ocr") (ocr_reason (validateOcrText inp)) None None) |}
  else
    match parseSurvey inp (req_isOcr req) with
    | Throw msg =>
        {| statusCode := 500;
           body := ErrorBody (createErrorResponse
             (Some "internal_error") (Some "Internal server error") None None) |}
    | Ret parseResult =>
        let completenessCheck := checkProfileCompleteness parseResult in
        if negb (isValid completenessCheck) then
          {| statusCode := 200;
             body := ErrorBody (createErrorResponse
               (status completenessCheck) (reason completenessCheck)
               (Some (match check_missing_fields completenessCheck with
                      | Some m => m
                      | None => missing_fields parseResult
                      end))
               (Some (answers parseResult, confidence parseResult))) |}
        else
          let rangeValidation := validateAnswerRanges (answers parseResult) in
          let ans := correctedAnswers rangeValidation in
          let factorResult := extractFactors ans in
          let riskResult := classifyRisk (factors factorResult) ans in
          let recResult :=
            generateRecommendations (factors factorResult) (risk_level riskResult) in
          {| statusCode := 200;
             body := DataBody
               {| data_answers := ans;
                  data_missing_fields := missing_fields parseResult;
                  parse_confidence := confidence parseResult;
                  data_corrections := corrections rangeValidation;
                  data_factors := factors factorResult;
                  data_factor_confidence := factor_confidence factorResult;
                  data_factor_details := None;
                  data_risk_level := risk_level riskResult;
                  data_score := score riskResult;
                  data_rationale := rationale riskResult;
                  data_recommendations := recommendations recResult;
                  data_detailed_recommendations := detailed_recommendations recResult;
                  data_warnings := warnings completenessCheck;
                  pipeline_steps := None |} |}
    end.

End WithEngine.
End Server.

(** ** Notions used to state the properties *)

Module Notions.
Import JS SurveyParser Guardrails FactorExtractor RiskClassifier RecommendationEngine
  SchemaValidator Pipeline Server.

(** The sum of the table scores of a factor list. *)
Definition sum_scores (factors : list string) : Z :=
  foldr (fun f acc => (factorScore f + acc)%Z) 0%Z factors.


(** Descending extraction weight. *)
Definition weight_ge (a b : FactorDetail) : Prop := (detail_weight b <= detail_weight a)%Q.

(** [x] occurs only before [y] in [l]. *)
Fixpoint all_before (x y : string) (l : list string) : bool :=
  match l with
  | [] => true
  | a :: l' =>
      (negb (String.eqb a y) || negb (existsb (String.eqb x) l')) && all_before x y l'
  end.

(** The keys the parsers can write. *)
Definition expected_keys : gset string := list_to_set EXPECTED_FIELDS.

Definition keys_in (a : gmap string value) : Prop := dom a ⊆ expected_keys.



(** The smoker answer after the range guard, for the answers [{smoker: s}]. *)
Definition guarded_smoker {engine : Engine} (s : string) : value :=
  get (correctedAnswers (validateAnswerRanges {[ "smoker" := VStr s ]})) "smoker".

(** A request body with the default options. *)
Definition request (inp : input) (ocr : bool) : AnalyzeRequest :=
  {| req_input := inp; req_isOcr := ocr;
     req_validateSchemas := true; req_stopOnWarning := false |}.

(** The [status] field of a response body. *)
Definition response_status (r : Response) : option string :=
  match body r with
  | ErrorBody e => err_status e
  | DataBody _ => Some "ok"
  | NoBody => None
  end.

(** The answers of the two end-to-end scenarios of the specification. *)
Definition scenario_A : gmap string value :=
  <["age" := VNum (of_Z 42)]> (<["smoker" := VBool true]>
  (<["exercise" := VStr "rarely"]> (<["diet" := VStr "high sugar"]>
  (<["stress" := VStr "high"]> (<["sleep" := VNum (of_Z 5)]> ∅))))).

Definition scenario_B : gmap string value :=
  <["age" := VNum (of_Z 25)]> (<["smoker" := VBool false]>
  (<["exercise" := VStr "regularly"]> (<["diet" := VStr "healthy"]> ∅))).

Definition default_options (ocr : bool) : Options :=
  {| isOcr := ocr; validateSchemas := true; stopOnWarning := false |}.

End Notions.

(** ** Notions used to state the further properties *)

Module MoreNotions.
Import JS SurveyParser Guardrails FactorExtractor RiskClassifier RecommendationEngine
  SchemaValidator Pipeline Server.

(** A value that is no number, or NaN, or a finite number of [[lo, hi]]. *)
Definition in_bounds (lo hi : Z) (v : value) : Prop :=
  match v with
  | VNum (Fin q) => (inject_Z lo <= q <= inject_Z hi)%Q
  | VNum (Inf _) => False
  | _ => True
  end.

(** Undefined, null or a number. *)
Definition number_or_nullish (v : value) : Prop :=
  is_nullish v = true \/ is_number v = true.

(** A smoker answer the range guard leaves alone. *)
Definition smoker_settled (v : value) : Prop :=
  forall s, v = VStr s ->
    array_includes ["yes"; "true"; "1"; "y"] (toLowerCase s) = false
    /\ array_includes ["no"; "false"; "0"; "n"] (toLowerCase s) = false.

(** Answers on which the range guard has nothing to do. *)
Definition settled (a : gmap string value) : Prop :=
  number_or_nullish (get a "age") /\ in_bounds 0 150 (get a "age")
  /\ number_or_nullish (get a "bmi") /\ in_bounds 10 100 (get a "bmi")
  /\ in_bounds 0 24 (get a "sleep")
  /\ smoker_settled (get a "smoker").

End MoreNotions.

Module ParserNotions.
Import JS SurveyParser.

Definition is_boolean (v : value) : bool :=
  match v with VBool _ => true | _ => false end.

(** The values the parsers store under each survey key; no other key is
    written and undefined is never stored. *)
Definition field_ok (k : string) (v : value) : bool :=
  if String.eqb k "age" then is_null v || is_number v
  else if String.eqb k "smoker" then is_null v || is_boolean v
  else if String.eqb k "exercise" then is_null v || is_string v
  else if String.eqb k "diet" then is_null v || is_string v
  else if String.eqb k "alcohol" then is_string v
  else if String.eqb k "sleep" then negb (is_undefined v)
  else if String.eqb k "stress" then is_string v
  else if String.eqb k "bmi" then is_null v || is_number v
  else false.

Definition well_typed (a : gmap string value) : Prop :=
  forall k v, a !! k = Some v -> field_ok k v = true.



(** The confidence formula on the counts, without rounding or clamping. *)
Definition confidence_formula (isOcr : bool) (missing nulls : nat) : Q :=
  (1 - (if isOcr then 0.1 else 0) - inject_Z (Z.of_nat missing) * 0.05
     - inject_Z (Z.of_nat nulls) * 0.02)%Q.

End ParserNotions.

(** ** schemaValidator.js: the schemas and their validation

    A response handed to the validator is a JSON-like object; objects keep
    their keys in insertion order.  The [optional] marks of the error
    schema are read by no function and are left out. *)

Module SchemaValidation.
Import JS.

#[warnings="-register-all"]
Inductive json :=
  | JUndef
  | JNull
  | JBool (b : bool)
  | JNum (n : number)
  | JStr (s : string)
  | JArr (elems : list json)
  | JObj (props : list (string * json)).

Definition object := list (string * json).

(** [o[k]], undefined for a key that is not there. *)
Fixpoint obj_get (o : object) (k : string) : json :=
  match o with
  | [] => JUndef
  | (k', v) :: o' => if String.eqb k' k then v else obj_get o' k
  end.

(** [o[k] = v]: in place for a key that is there, at the end otherwise. *)
Fixpoint obj_set (o : object) (k : string) (v : json) : object :=
  match o with
  | [] => [(k, v)]
  | (k', v') :: o' =>
      if String.eqb k' k then (k, v) :: o' else (k', v') :: obj_set o' k v
  end.

(** [{ ...base, ...extra }] *)
Definition spread (base extra : object) : object :=
  fold_left (fun acc kv => obj_set acc kv.1 kv.2) extra base.

Definition is_undef (v : json) : bool :=
  match v with JUndef => true | _ => false end.

(** [Array.isArray(v) ? 'array' : typeof v] *)
Definition actual_type (v : json) : string :=
  match v with
  | JUndef => "undefined"
  | JNull => "object"
  | JBool _ => "boolean"
  | JNum _ => "number"
  | JStr _ => "string"
  | JArr _ => "array"
  | JObj _ => "object"
  end.

#[warnings="-register-all"]
Inductive PropSchema := MkProp {
  type : option string;
  enum : option (list string);
  min : option Z;
  max : option Z;
  items : option PropSchema;
}.

Record Schema := {
  required : option (list string);
  properties : option (list (string * PropSchema));
}.

Definition typed (t : string) : PropSchema :=
  {| type := Some t; enum := None; min := None; max := None; items := None |}.
Definition ranged (lo hi : Z) : PropSchema :=
  {| type := Some "number"; enum := None; min := Some lo; max := Some hi; items := None |}.
Definition one_of (values : list string) : PropSchema :=
  {| type := Some "string"; enum := Some values; min := None; max := None; items := None |}.
Definition array_of (item : PropSchema) : PropSchema :=
  {| type := Some "array"; enum := None; min := None; max := None; items := Some item |}.

Definition parseResponse : Schema :=
  {| required := Some ["answers"; "missing_fields"; "confidence"];
     properties := Some [
       ("answers", typed "object");
       ("missing_fields", array_of (typed "string"));
       ("confidence", ranged 0 1) ] |}.

Definition factorResponse : Schema :=
  {| required := Some ["factors"; "confidence"];
     properties := Some [
       ("factors", array_of (typed "string"));
       ("confidence", ranged 0 1) ] |}.

Definition riskResponse : Schema :=
  {| required := Some ["risk_level"; "score"; "rationale"];
     properties := Some [
       ("risk_level", one_of ["low"; "moderate"; "high"; "very high"]);
       ("score", ranged 0 100);
       ("rationale", array_of (typed "string")) ] |}.

Definition analysisResponse : Schema :=
  {| required := Some ["status"; "risk_level"; "score"; "factors"; "recommendations"];
     properties := Some [
       ("status", typed "string");
       ("answers", typed "object");
       ("missing_fields", typed "array");
       ("parse_confidence", typed "number");
       ("factors", typed "array");
       ("factor_confidence", typed "number");
       ("risk_level", typed "string");
       ("score", typed "number");
       ("rationale", typed "array");
       ("recommendations", typed "array");
       ("detailed_recommendations", typed "array");
       ("warnings", typed "array") ] |}.

Definition errorResponse : Schema :=
  {| required := Some ["status"; "reason"];
     properties := Some [
       ("status", typed "string");
       ("reason", typed "string");
       ("missing_fields", typed "array");
       ("partial_parse", typed "object") ] |}.

Definition inputAnswers : Schema :=
  {| required := None;
     properties := Some [
       ("age", ranged 0 150);
       ("smoker", typed "boolean");
       ("exercise", one_of ["rarely"; "sometimes"; "regularly"]);
       ("diet", typed "string");
       ("alcohol", one_of ["rarely"; "moderate"; "heavy"]);
       ("sleep", ranged 0 24);
       ("stress", one_of ["low"; "moderate"; "high"]);
       ("bmi", ranged 10 100) ] |}.

Definition SCHEMAS : list (string * Schema) := [
  ("parseResponse", parseResponse);
  ("factorResponse", factorResponse);
  ("riskResponse", riskResponse);
  ("analysisResponse", analysisResponse);
  ("errorResponse", errorResponse);
  ("inputAnswers", inputAnswers)
].

(** [SCHEMAS[name]] *)
Fixpoint schema_named (table : list (string * Schema)) (name : string) : option Schema :=
  match table with
  | [] => None
  | (n, s) :: table' => if String.eqb n name then Some s else schema_named table' name
  end.

Record Validation := {
  isValid : bool;
  errors : list string;
}.

Definition quote : string := String (ascii_of_nat 34) EmptyString.

(** [list.join(sep)] on strings *)
Fixpoint join (sep : string) (l : list string) : string :=
  match l with
  | [] => EmptyString
  | [s] => s
  | s :: l' => s ++ sep ++ join sep l'
  end.

(** [errors.push(e)] *)
Definition push (errors : list string) (e : string) : list string := (errors ++ [e])%list.

Section WithEngine.
Context {engine : Engine}.

(** The text of a value inside a template literal; an element of an array
    that is null or undefined prints as the empty string. *)
Fixpoint json_to_string (v : json) : string :=
  match v with
  | JUndef => "undefined"
  | JNull => "null"
  | JBool true => "true"
  | JBool false => "false"
  | JNum n => Number_toString n
  | JStr s => s
  | JArr elems =>
      join "," (List.map (fun e => match e with
                                   | JUndef | JNull => EmptyString
                                   | _ => json_to_string e
                                   end) elems)
  | JObj _ => "[object Object]"
  end.

(** [list.includes(v)] for a list of strings *)
Definition enum_includes (values : list string) (v : json) : bool :=
  match v with
  | JStr s => array_includes values s
  | _ => false
  end.

(** [v < bound] and [v > bound]; the validator compares numbers only. *)
Definition below (v : json) (bound : Z) : bool :=
  match v with JNum n => num_lt n (of_Z bound) | _ => false end.
Definition above (v : json) (bound : Z) : bool :=
  match v with JNum n => num_gt n (of_Z bound) | _ => false end.

Definition is_type (propSchema : PropSchema) (t : string) : bool :=
  match type propSchema with Some t' => String.eqb t' t | None => false end.

Fixpoint validateProperty (value : json) (propSchema : PropSchema) (propName : string)
    {struct propSchema} : list string :=
  match value with
  | JUndef | JNull => []
  | _ =>
      let actualType := actual_type value in
      match (match type propSchema with
             | Some t => if is_empty t || String.eqb t actualType then None else Some t
             | None => None
             end) with
      | Some t => [propName ++ ": expected " ++ t ++ ", got " ++ actualType]
      | None =>
          let errors := [] in
          let errors :=
            match enum propSchema with
            | Some values =>
                if negb (enum_includes values value)
                then push errors (propName ++ ": value " ++ quote ++ json_to_string value
                                  ++ quote ++ " not in allowed values ["
                                  ++ join ", " values ++ "]")
                else errors
            | None => errors
            end in
          let errors :=
            if is_type propSchema "number" then
              let errors :=
                match min propSchema with
                | Some lo =>
                    if below value lo
                    then push errors (propName ++ ": value " ++ json_to_string value
                                      ++ " is below minimum " ++ Number_toString (of_Z lo))
                    else errors
                | None => errors
                end in
              match max propSchema with
              | Some hi =>
                  if above value hi
                  then push errors (propName ++ ": value " ++ json_to_string value
                                    ++ " exceeds maximum " ++ Number_toString (of_Z hi))
                  else errors
              | None => errors
              end
            else errors in
          match items propSchema, value with
          | Some itemSchema, JArr elems =>
              if is_type propSchema "array" then
                let itemErrors := imap (fun index item =>
                  validateProperty item itemSchema
                    (propName ++ "[" ++ Guardrails.string_of_Z (Z.of_nat index) ++ "]"))
                  elems in
                (errors ++ concat itemErrors)%list
              else errors
          | _, _ => errors
          end
      end
  end.

Definition validateSchema (data : object) (schema : Schema) : Validation :=
  let errors := [] in
  let errors :=
    match required schema with
    | Some fields =>
        fold_left (fun errors field =>
          if is_undef (obj_get data field)
          then push errors ("Missing required field: " ++ field)
          else errors) fields errors
    | None => errors
    end in
  let errors :=
    match properties schema with
    | Some props =>
        fold_left (fun errors p =>
          let propErrors := validateProperty (obj_get data p.1) p.2 p.1 in
          (errors ++ propErrors)%list) props errors
    | None => errors
    end in
  {| isValid := (length errors =? 0)%nat; errors := errors |}.

End WithEngine.

(** The default [ensureSchemaCompliance] stores for a type. *)
Definition default_of (propSchema : PropSchema) : json :=
  match type propSchema with
  | Some t =>
      if String.eqb t "array" then JArr []
      else if String.eqb t "object" then JObj []
      else if String.eqb t "number" then JNum (of_Z 0)
      else if String.eqb t "string" then JStr EmptyString
      else JNull
  | None => JNull
  end.

(** [schema.properties?.[field]] *)
Definition property_named (schema : Schema) (field : string) : option PropSchema :=
  match properties schema with
  | Some props => snd <$> List.find (fun p => String.eqb p.1 field) props
  | None => None
  end.

Definition ensureSchemaCompliance (data : object) (schemaName : string) : object :=
  match schema_named SCHEMAS schemaName with
  | None => data
  | Some schema =>
      let result := data in
      match required schema with
      | Some fields =>
          fold_left (fun result field =>
            if is_undef (obj_get result field) then
              match property_named schema field with
              | Some propSchema => obj_set result field (default_of propSchema)
              | None => result
              end
            else result) fields result
      | None => result
      end
  end.

(** [createSuccessResponse(data, schemaName)], the time stamp given. *)
Definition createSuccessResponse (now : string) (data : object) (schemaName : option string)
    : object :=
  let response := spread [("status", JStr "ok"); ("timestamp", JStr now)] data in
  match schemaName with
  | Some name => if is_empty name then response else ensureSchemaCompliance response name
  | None => response
  end.

End SchemaValidation.

(** ** The objects the services return, as the validator sees them *)

Module SchemaNotions.
Import JS SurveyParser FactorExtractor RiskClassifier SchemaValidation.

Definition json_of_value (v : value) : json :=
  match v with
  | VUndef => JUndef
  | VNull => JNull
  | VBool b => JBool b
  | VNum n => JNum n
  | VStr s => JStr s
  end.

Definition json_of_strings (l : list string) : json := JArr (List.map JStr l).

Definition json_of_answers (a : gmap string value) : json :=
  JObj (List.map (fun kv => (kv.1, json_of_value kv.2)) (map_to_list a)).

(** [{ answers, missing_fields, confidence }], with [error] after a failure. *)
Definition parse_object (r : ParseResult) : object :=
  ([("answers", json_of_answers (answers r));
    ("missing_fields", json_of_strings (missing_fields r));
    ("confidence", JNum (Fin (confidence r)))]
   ++ match error r with
      | Some e => [("error", JStr e)]
      | None => []
      end)%list.

Definition detail_object (d : FactorDetail) : json :=
  JObj [("id", JStr (detail_id d)); ("label", JStr (detail_label d));
        ("weight", JNum (Fin (detail_weight d)))].

(** [{ factors, factor_details, confidence }] *)
Definition factor_object (r : FactorResult) : object :=
  [("factors", json_of_strings (factors r));
   ("factor_details", JArr (List.map detail_object (factor_details r)));
   ("confidence", JNum (Fin (factor_confidence r)))].

(** [{ risk_level, score, rationale }] *)
Definition risk_object (r : RiskResult) : object :=
  [("risk_level", JStr (risk_level r));
   ("score", JNum (of_Z (score r)));
   ("rationale", json_of_strings (rationale r))].

(** A field that is there with a value other than undefined. *)
Definition defined (o : object) (k : string) : Prop := obj_get o k <> JUndef.

Definition passes : Validation := {| isValid := true; errors := [] |}.

(** A value agrees with a property schema: it is undefined or null, or it
    has the type asked for, lies in the enumeration if there is one, and,
    for a finite number under the type number, within the bounds. *)
Definition conforms (v : json) (propSchema : PropSchema) : Prop :=
  v = JUndef \/ v = JNull
  \/ ((forall t, type propSchema = Some t -> is_empty t = false -> actual_type v = t)
      /\ (forall values, enum propSchema = Some values ->
            exists s, v = JStr s /\ In s values)
      /\ (forall lo q, type propSchema = Some "number" -> min propSchema = Some lo ->
            v = JNum (Fin q) -> (inject_Z lo <= q)%Q)
      /\ (forall hi q, type propSchema = Some "number" -> max propSchema = Some hi ->
            v = JNum (Fin q) -> (q <= inject_Z hi)%Q)).

End SchemaNotions.

Module PipelineNotions.
Import JS SurveyParser Guardrails Pipeline Server.





Definition step_names : list string :=
  ["input_validation"; "parse"; "factors"; "risk"; "recommendations"].

End PipelineNotions.

(** * Properties *)

(** ** Comparisons of numbers *)

Module JSFacts.
Import JS.

Lemma Qlt_bool_true (x y : Q) : Qlt_bool x y = true <-> (x < y)%Q.
Proof.
  unfold Qlt_bool. rewrite negb_true_iff.
  destruct (Qle_bool y x) eqn:E.
  - apply Qle_bool_iff in E. split; [done|]. intros H. exfalso. lra.
  - split; [|done]. intros _. apply Qnot_le_lt. intros H.
    apply Qle_bool_iff in H. congruence.
Qed.

Lemma Qlt_bool_false (x y : Q) : Qlt_bool x y = false <-> (y <= x)%Q.
Proof.
  destruct (Qlt_bool x y) eqn:E.
  - apply Qlt_bool_true in E. split; [done|]. intros H. exfalso. lra.
  - split; [|done]. intros _. apply Qnot_lt_le. intros H.
    apply Qlt_bool_true in H. congruence.
Qed.

End JSFacts.

(** ** The stable sort *)

Module SortFacts.
Import JSArray.

Section Sorting.
Context {A : Type} (gt : A -> A -> bool) (R : A -> A -> Prop).
(** [R] is the order the comparator implements: [gt a b] says that [a]
    must come after [b]. *)
Hypothesis gt_false : forall a b, gt a b = false -> R a b.
Hypothesis gt_true : forall a b, gt a b = true -> R b a.
Hypothesis R_trans : forall a b c, R a b -> R b c -> R a c.

Lemma sort_insert_perm (x : A) (l : list A) : sort_insert gt x l ≡ₚ x :: l.
Proof.
  induction l as [|y l IH]; simpl; [done|].
  destruct (gt x y); [|done].
  rewrite IH. apply Permutation_swap.
Qed.

Lemma sort_perm (l : list A) : sort gt l ≡ₚ l.
Proof.
  induction l as [|x l IH]; simpl; [done|].
  rewrite sort_insert_perm. by rewrite IH.
Qed.

Lemma sort_insert_sorted (x : A) (l : list A) :
  StronglySorted R l -> StronglySorted R (sort_insert gt x l).
Proof.
  induction 1 as [|y l Hl IH Hy]; simpl.
  - repeat constructor.
  - destruct (gt x y) eqn:Hxy.
    + constructor; [exact IH|].
      rewrite Forall_forall. intros z Hz.
      rewrite sort_insert_perm in Hz.
      apply elem_of_cons in Hz as [->|Hz]; [by apply gt_true|].
      rewrite Forall_forall in Hy. by apply Hy.
    + constructor; [by constructor|].
      constructor; [by apply gt_false|].
      eapply Forall_impl; [exact Hy|]. intros z Hz.
      eapply R_trans; [|exact Hz]. by apply gt_false.
Qed.

Lemma sort_sorted (l : list A) : StronglySorted R (sort gt l).
Proof.
  induction l as [|x l IH]; simpl; [constructor|].
  by apply sort_insert_sorted.
Qed.

End Sorting.

(** Stability: the elements of one class of mutually unordered elements keep
    their order. *)
Section Stability.
Context {A : Type} (gt : A -> A -> bool) (p : A -> bool).
Hypothesis same_class : forall a b, p a = true -> p b = true -> gt a b = false.

Lemma sort_insert_filter (x : A) (l : list A) :
  List.filter p (sort_insert gt x l) = List.filter p (x :: l).
Proof.
  induction l as [|y l IH]; simpl; [done|].
  destruct (gt x y) eqn:Hxy; [|done].
  simpl. rewrite IH. simpl.
  destruct (p x) eqn:Hx, (p y) eqn:Hy; try done.
  by rewrite same_class in Hxy.
Qed.

Lemma sort_filter (l : list A) : List.filter p (sort gt l) = List.filter p l.
Proof.
  induction l as [|x l IH]; simpl; [done|].
  rewrite sort_insert_filter. simpl. by rewrite IH.
Qed.

End Stability.
End SortFacts.

(** ** The risk classifier *)

Module RiskClassifierFacts.
Import JS JSFacts RiskClassifier Notions.
Local Open Scope Z_scope.

Lemma fold_scores (factors : list string) (s0 : Z) :
  fold_left (fun s f => s + factorScore f) factors s0 = s0 + sum_scores factors.
Proof.
  revert s0. induction factors as [|f fs IH]; intros s0; simpl; [lia|].
  rewrite IH. lia.
Qed.

Lemma sum_scores_app (l1 l2 : list string) :
  sum_scores (l1 ++ l2) = sum_scores l1 + sum_scores l2.
Proof. induction l1 as [|f l1 IH]; simpl; lia. Qed.

Lemma FACTOR_SCORES_table (f : string) (s : Z) :
  FACTOR_SCORES !! f = Some s ->
  (f, s) ∈ [("smoking", 25); ("poor diet", 18); ("low exercise", 15);
            ("excessive alcohol", 20); ("poor sleep", 10); ("high stress", 12);
            ("obesity", 20); ("overweight", 10); ("advanced age", 8); ("middle age", 4)].
Proof. intros H. by apply elem_of_list_to_map_2 in H. Qed.

Lemma factorScore_nonneg (f : string) : 0 <= factorScore f.
Proof.
  unfold factorScore. destruct (FACTOR_SCORES !! f) as [s|] eqn:E; simpl; [|lia].
  apply FACTOR_SCORES_table in E.
  repeat (apply elem_of_cons in E as [E|E]; [inversion E; lia|]).
  by apply elem_of_nil in E.
Qed.

Lemma sum_scores_nonneg (factors : list string) : 0 <= sum_scores factors.
Proof.
  induction factors as [|f fs IH]; simpl; [lia|].
  pose proof (factorScore_nonneg f). lia.
Qed.

Section WithEngine.
Context {engine : Engine}.

Lemma getAgeBaseRisk_range (age : value) : 0 <= getAgeBaseRisk age <= 25.
Proof.
  unfold getAgeBaseRisk.
  repeat match goal with |- context [if ?b then _ else _] => destruct b end; lia.
Qed.

(** The age table on a finite numeric age. *)
Lemma getAgeBaseRisk_number (q : Q) :
  getAgeBaseRisk (VNum (Fin q)) =
    if Qlt_bool q 30 then 0 else if Qlt_bool q 40 then 5
    else if Qlt_bool q 50 then 10 else if Qlt_bool q 60 then 15
    else if Qlt_bool q 70 then 20 else 25.
Proof. reflexivity. Qed.


(** C9.  Appending a factor whose table score is positive never lowers the
    score. *)
Theorem classifyRisk_monotone (factors : list string) (ans : gmap string value)
    (f : string) (s : Z) :
  FACTOR_SCORES !! f = Some s -> 0 < s ->
  score (classifyRisk factors ans) <= score (classifyRisk (factors ++ [f]) ans).
Proof.
  intros Hf Hs.
  assert (Hscore : factorScore f = s) by (unfold factorScore; by rewrite Hf).
  unfold classifyRisk. simpl. rewrite !fold_scores, sum_scores_app.
  simpl. rewrite Hscore. lia.
Qed.

End WithEngine.

Lemma classifyRisk_monotone_witness :
  FACTOR_SCORES !! "smoking" = Some 25 /\ 0 < 25 /\
  score (classifyRisk (engine := strict_engine) ["poor diet"] ∅)
    <= score (classifyRisk (engine := strict_engine) (["poor diet"] ++ ["smoking"]) ∅).
Proof.
  split; [reflexivity|]. split; [lia|].
  apply (classifyRisk_monotone (engine := strict_engine) ["poor diet"] ∅ "smoking" 25);
    [reflexivity | lia].
Defined.

End RiskClassifierFacts.

(** ** The recommendation engine *)

Module RecommendationFacts.
Import JS JSArray RecommendationEngine Notions.
Local Open Scope Z_scope.











End RecommendationFacts.

(** ** The factor extractor *)

Module FactorExtractorFacts.
Import JS JSFacts JSArray FactorExtractor Notions.

Lemma sorted_by_weight (l : list FactorDetail) :
  StronglySorted weight_ge (sort by_weight_desc l).
Proof.
  apply SortFacts.sort_sorted; unfold by_weight_desc, weight_ge.
  - intros a b H. apply Qlt_bool_false in H. lra.
  - intros a b H. apply Qlt_bool_true in H. lra.
  - intros a b c. lra.
Qed.

(** Details of one weight are never swapped by the comparator. *)
Lemma same_weight_unordered (w : Q) (a b : FactorDetail) :
  Qeq_bool (detail_weight a) w = true -> Qeq_bool (detail_weight b) w = true ->
  by_weight_desc a b = false.
Proof.
  intros Ha Hb. apply Qeq_bool_iff in Ha, Hb.
  apply Qlt_bool_false. lra.
Qed.

Lemma all_before_spec (x y : string) (l : list string) :
  x <> y -> all_before x y l = true ->
  forall i j, l !! i = Some x -> l !! j = Some y -> (i < j)%nat.
Proof.
  intros Hxy. induction l as [|a l IH]; intros H i j Hi Hj; [done|].
  simpl in H. apply andb_true_iff in H as [Ha Hl].
  destruct i as [|i], j as [|j]; simpl in Hi, Hj.
  - congruence.
  - lia.
  - exfalso. inversion Hj; subst a. rewrite String.eqb_refl in Ha. simpl in Ha.
    apply negb_true_iff in Ha.
    assert (existsb (String.eqb x) l = true); [|congruence].
    apply existsb_exists. exists x. split; [|apply String.eqb_refl].
    apply list_elem_of_In. by eapply list_elem_of_lookup_2.
  - assert (i < j)%nat by (by apply IH). lia.
Qed.

Lemma all_before_check (l : list string) :
  all_before "low exercise" "obesity" l = true ->
  forall i j, l !! i = Some "low exercise" -> l !! j = Some "obesity" -> (i < j)%nat.
Proof. by apply all_before_spec. Qed.

(** Whatever subset of the rules matches, low exercise ends up before
    obesity. *)
Lemma low_exercise_before_obesity (f : Rule -> bool) :
  all_before "low exercise" "obesity"
    (List.map detail_label (sort by_weight_desc (List.map detail_of (List.filter f FACTOR_RULES))))
  = true.
Proof.
  unfold FACTOR_RULES. cbn [List.filter].
  repeat match goal with |- context [f ?r] => destruct (f r) end;
    vm_compute; reflexivity.
Qed.

(** C5.  The factors are the labels of the details; the details are those of
    the matching rules, sorted by descending weight, those of one weight in
    the order of the rule table; so low exercise comes before obesity. *)
Theorem extractFactors_order (ans : gmap string value) :
  let r := extractFactors ans in
  let matched := List.map detail_of (List.filter (rule_matches ans) FACTOR_RULES) in
  factors r = List.map detail_label (factor_details r)
  /\ factor_details r ≡ₚ matched
  /\ StronglySorted weight_ge (factor_details r)
  /\ (forall w, List.filter (fun d => Qeq_bool (detail_weight d) w) (factor_details r)
              = List.filter (fun d => Qeq_bool (detail_weight d) w) matched)
  /\ (forall i j, factors r !! i = Some "low exercise" -> factors r !! j = Some "obesity" ->
        (i < j)%nat).
Proof.
  cbv zeta. unfold extractFactors. cbn [factors factor_details].
  split; [reflexivity|].
  split; [apply SortFacts.sort_perm|].
  split; [apply sorted_by_weight|].
  split.
  - intros w. apply SortFacts.sort_filter. apply same_weight_unordered.
  - apply all_before_check, low_exercise_before_obesity.
Qed.

End FactorExtractorFacts.

(** ** The survey parser *)

Module SurveyParserFacts.
Import JS JSFacts SurveyParser Notions.

Lemma keys_in_empty : keys_in ∅.
Proof. unfold keys_in. set_solver. Qed.

Lemma keys_in_insert (k : string) (v : value) (a : gmap string value) :
  k ∈ expected_keys -> keys_in a -> keys_in (<[k := v]> a).
Proof.
  intros Hk Ha. unfold keys_in. rewrite dom_insert_L.
  apply union_least; [by apply singleton_subseteq_l | exact Ha].
Qed.

Lemma keys_in_if (b : bool) (x y : gmap string value) :
  keys_in x -> keys_in y -> keys_in (if b then x else y).
Proof. by destruct b. Qed.

Lemma keys_in_match {B} (o : option B) (f : B -> gmap string value) (y : gmap string value) :
  (forall g, keys_in (f g)) -> keys_in y ->
  keys_in (match o with Some g => f g | None => y end).
Proof. by destruct o. Qed.

Lemma expected_key (k : string) : In k EXPECTED_FIELDS -> k ∈ expected_keys.
Proof. intros H. apply elem_of_list_to_set. by apply list_elem_of_In. Qed.

Lemma keys_in_size (a : gmap string value) : keys_in a -> (size a <= 8)%nat.
Proof.
  intros H. rewrite <- size_dom. apply subseteq_size in H.
  assert (size expected_keys = 8%nat) as <- by (by vm_compute). exact H.
Qed.

Lemma count_values_le_size (p : value -> bool) (a : gmap string value) :
  (count_values p a <= size a)%nat.
Proof.
  unfold count_values. rewrite <- length_map_to_list. apply filter_length_le.
Qed.

(** With no parsed value at all, every key reads as null or undefined. *)
Lemma nothing_parsed (a : gmap string value) (k : string) :
  count_values is_parsed a = 0%nat -> is_nullish (get a k) = true.
Proof.
  intros H. unfold get. destruct (a !! k) as [v|] eqn:E; [|done]. simpl.
  destruct (is_nullish v) eqn:Hv; [done|]. exfalso.
  apply elem_of_map_to_list, list_elem_of_In in E.
  assert (Hin : In (k, v) (List.filter (fun kv : string * value => is_parsed kv.2)
                                        (map_to_list a))).
  { apply filter_In. split; [done|]. unfold is_parsed. simpl. by rewrite Hv. }
  unfold count_values in H. apply length_zero_iff_nil in H. by rewrite H in Hin.
Qed.

Section WithEngine.
Context {engine : Engine}.

Lemma set_if_defined_keys (raw : input) (k : string) (f : value -> value)
    (a a' : gmap string value) :
  In k EXPECTED_FIELDS -> keys_in a -> set_if_defined raw k f a = Ret a' -> keys_in a'.
Proof.
  intros Hk Ha. unfold set_if_defined.
  destruct (raw_get raw k) as [v|]; simpl; [|done].
  intros [= <-]. apply keys_in_if; [done|]. apply keys_in_insert; [|done].
  by apply expected_key.
Qed.

Lemma parseJsonInput_keys (inp : input) (a : gmap string value) :
  parseJsonInput inp = Ret a -> keys_in a.
Proof.
  unfold parseJsonInput.
  destruct (match inp with InStr s => JSON_parse s | _ => Ret inp end) as [raw|];
    simpl; [|done].
  pose proof keys_in_empty as H0.
  repeat match goal with
  | |- bind (set_if_defined raw ?k ?f ?acc) _ = _ -> _ =>
      let E := fresh "E" in
      destruct (set_if_defined raw k f acc) as [?a|] eqn:E; simpl; [|done];
      apply set_if_defined_keys in E; [|simpl; tauto|assumption]
  end.
  by intros [= <-].
Qed.

Lemma parseOcrLine_keys (a : gmap string value) (line : string) :
  keys_in a -> keys_in (parseOcrLine a line).
Proof.
  intros Ha. unfold parseOcrLine. cbv zeta.
  repeat first
    [ assumption
    | apply keys_in_if
    | apply keys_in_match; [intros ?|]
    | apply keys_in_insert; [apply expected_key; simpl; tauto|] ].
Qed.

Lemma parseOcrText_keys (text : input) (a : gmap string value) :
  parseOcrText text = Ret a -> keys_in a.
Proof.
  destruct text; simpl; try done. intros [= <-].
  generalize (ocr_lines s). intros lines.
  assert (H : keys_in ∅) by apply keys_in_empty. revert H.
  generalize (∅ : gmap string value).
  induction lines as [|l ls IH]; intros acc Hacc; simpl; [done|].
  apply IH. by apply parseOcrLine_keys.
Qed.


Lemma parse_attempt_keys (inp : input) (isOcr : bool) (a : gmap string value) :
  parse_attempt inp isOcr = Ret a -> keys_in a.
Proof.
  unfold parse_attempt. destruct isOcr; [apply parseOcrText_keys|].
  destruct inp; try apply parseJsonInput_keys.
  unfold try_catch. destruct (parseJsonInput (InStr s)) as [a'|] eqn:E.
  - intros [= <-]. by eapply parseJsonInput_keys.
  - apply parseOcrText_keys.
Qed.


End WithEngine.

Lemma core_present_le (a : gmap string value) :
  (length (List.filter (fun f => is_parsed (get a f)) CORE_FIELDS) <= 4)%nat.
Proof. apply (filter_length_le _ CORE_FIELDS). Qed.

(** The lowest confidence the formula can give on at most eight answers. *)
Lemma calculateConfidence_floor (a : gmap string value) (isOcr : bool) :
  (size a <= 8)%nat -> (0.54 <= calculateConfidence a isOcr)%Q.
Proof.
  intros Hsize. unfold calculateConfidence. cbv zeta.
  pose proof (core_present_le a) as Hp.
  pose proof (count_values_le_size is_null a) as Hn.
  revert Hp Hn.
  generalize (length (List.filter (fun f => is_parsed (get a f)) CORE_FIELDS)).
  generalize (count_values is_null a). intros n p Hp Hn.
  assert (Hn8 : (n <= 8)%nat) by lia. clear Hn Hsize.
  apply Qle_bool_iff.
  destruct p as [|[|[|[|[|p]]]]]; try lia;
    destruct n as [|[|[|[|[|[|[|[|[|n]]]]]]]]]; try lia;
    destruct isOcr; vm_compute; reflexivity.
Qed.

Section WithEngine.
Context {engine : Engine}.

Lemma parseSurvey_total (inp : input) (isOcr : bool) :
  exists r, parseSurvey inp isOcr = Ret r.
Proof. unfold parseSurvey. destruct (parse_attempt inp isOcr); eauto. Qed.

(** C6.  [parseSurvey] always returns: when the parse attempt throws, the
    result is the empty answer set with the four core fields missing,
    confidence 0 and an error message; otherwise the result carries the
    parsed answers and no error. *)
Theorem parseSurvey_never_throws (inp : input) (isOcr : bool) :
  (exists r, parseSurvey inp isOcr = Ret r)
  /\ match parse_attempt inp isOcr with
     | Throw msg =>
         parseSurvey inp isOcr =
           Ret {| answers := ∅;
                  missing_fields := ["age"; "smoker"; "exercise"; "diet"];
                  confidence := 0;
                  error := Some ("Failed to parse input: " ++ msg) |}
     | Ret ans =>
         exists r, parseSurvey inp isOcr = Ret r /\ answers r = ans /\ error r = None
     end.
Proof.
  unfold parseSurvey. destruct (parse_attempt inp isOcr) as [ans|msg].
  - split; eexists; [reflexivity|]. by repeat split.
  - split; [eexists|]; reflexivity.
Qed.

(** Both outcomes of the parse attempt occur. *)
Example parse_attempt_throws :
  parse_attempt InNull false = Throw "Cannot read properties of null (reading 'age')"
  /\ parse_attempt (InObject ∅) true = Throw "text.split is not a function".
Proof. split; reflexivity. Qed.

(** C7, at the age 0: the integer parse gives 0 and the stored age is null,
    for the number as for the string. *)
Theorem parseJsonInput_age_zero :
  parseInt (VNum (of_Z 0)) = of_Z 0
  /\ parseJsonInput (InObject {[ "age" := VNum (of_Z 0) ]}) = Ret {[ "age" := VNull ]}
  /\ parseInt (VStr "0") = of_Z 0
  /\ parseJsonInput (InObject {[ "age" := VStr "0" ]}) = Ret {[ "age" := VNull ]}.
Proof. repeat split; vm_compute; reflexivity. Qed.

(** The line scanner keeps the age 0. *)
Example parseOcrText_age_zero :
  parseOcrText (InStr "Age: 0") = Ret {[ "age" := VNum (of_Z 0) ]}.
Proof. vm_compute. reflexivity. Qed.

Lemma set_if_defined_other (raw : input) (k k' : string) (f : value -> value)
    (a a' : gmap string value) :
  k <> k' -> set_if_defined raw k f a = Ret a' -> a' !! k' = a !! k'.
Proof.
  intros Hk. unfold set_if_defined. destruct (raw_get raw k) as [v|]; simpl; [|done].
  intros [= <-]. destruct (is_undefined v); [done|]. by rewrite lookup_insert_ne.
Qed.

(** What the structured parser stores for an age that is present: the
    integer parse, or null when the parse is NaN or 0. *)
Lemma parseJsonInput_age (props : gmap string value) (v : value) (a : gmap string value) :
  props !! "age" = Some v -> v <> VUndef ->
  parseJsonInput (InObject props) = Ret a ->
  a !! "age" = Some (js_or (VNum (parseInt v)) VNull).
Proof.
  intros Hv Hdef. unfold parseJsonInput. cbn [bind].
  destruct (set_if_defined (InObject props) "age" _ ∅) as [a1|] eqn:E1; cbn [bind]; [|done].
  assert (H1 : a1 !! "age" = Some (js_or (VNum (parseInt v)) VNull)).
  { unfold set_if_defined, raw_get, get in E1. rewrite Hv in E1. simpl in E1.
    assert (is_undefined v = false) as Hu by (by destruct v). rewrite Hu in E1.
    injection E1 as <-. by rewrite lookup_insert_eq. }
  clear E1.
  repeat match goal with
  | |- bind (set_if_defined ?raw ?k ?f ?acc) _ = _ -> _ =>
      let E := fresh "E" in
      destruct (set_if_defined raw k f acc) as [?a|] eqn:E; cbn [bind]; [|done];
      apply (set_if_defined_other _ _ "age") in E; [|done]; rewrite <- E in H1; clear E
  end.
  by intros [= <-].
Qed.

End WithEngine.

End SurveyParserFacts.

(** ** The guardrails *)

Module GuardrailsFacts.
Import JS JSFacts SurveyParser Guardrails Notions.

Lemma clamp_field_other (name k : string) (lo hi : Z) (v : value)
    (acc : gmap string value * list Correction) {engine : Engine} :
  name <> k -> (clamp_field name lo hi v acc).1 !! k = acc.1 !! k.
Proof.
  intros Hk. destruct acc as [a cs]. unfold clamp_field.
  destruct (lt_num v lo); [simpl; by rewrite lookup_insert_ne|].
  destruct (gt_num v hi); [simpl; by rewrite lookup_insert_ne|done].
Qed.

Section WithEngine.
Context {engine : Engine}.

Lemma coerce_and_clamp_other (name k : string) (parse : value -> number) (lo hi : Z)
    (ans : gmap string value) (acc : gmap string value * list Correction) :
  name <> k -> (coerce_and_clamp name parse lo hi ans acc).1 !! k = acc.1 !! k.
Proof.
  intros Hk. destruct acc as [a cs]. unfold coerce_and_clamp.
  destruct (is_nullish (get a name)); [done|].
  destruct (negb (is_number (get a name))).
  - destruct (negb (is_null (js_or (VNum (parse (get a name))) VNull)));
      [rewrite clamp_field_other by done|]; simpl; by rewrite lookup_insert_ne.
  - destruct (negb (is_null (get a name))); [by rewrite clamp_field_other|done].
Qed.

Lemma clamp_sleep_other (k : string) (acc : gmap string value * list Correction) :
  k <> "sleep" -> (clamp_sleep acc).1 !! k = acc.1 !! k.
Proof.
  intros Hk. unfold clamp_sleep.
  destruct (negb (is_nullish (get acc.1 "sleep")) && is_number (get acc.1 "sleep"));
    [|done].
  by apply clamp_field_other.
Qed.


End WithEngine.

Lemma array_includes_In (l : list string) (s : string) :
  array_includes l s = true <-> In s l.
Proof.
  unfold array_includes. rewrite existsb_exists. split.
  - intros (x & Hx & E). by apply String.eqb_eq in E as ->.
  - intros H. exists s. split; [done | apply String.eqb_refl].
Qed.




Section WithEngine.
Context {engine : Engine}.


End WithEngine.



(** Surrounding blanks, too, are trimmed by the Normalizer only. *)
Example smoker_blanks_differ :
  normalizeBoolean (VStr " yes ") = VBool true
  /\ guarded_smoker (engine := strict_engine) " yes " = VStr " yes ".
Proof. split; vm_compute; reflexivity. Qed.

End GuardrailsFacts.

(** ** The completeness guard, the pipeline and the routes *)

Module PipelineFacts.
Import JS JSFacts SurveyParser Guardrails SchemaValidator Pipeline Server Notions.
Import SurveyParserFacts.

Section WithEngine.
Context {engine : Engine}.

Lemma validateInput_status (inp : input) :
  isValid (validateInput inp) = false ->
  status (validateInput inp) = Some "invalid_input"
  \/ status (validateInput inp) = Some "empty_input"
  \/ status (validateInput inp) = Some "invalid_json".
Proof.
  destruct inp; simpl; auto; try done.
  - destruct (String.length (trim s) =? 0)%nat; simpl; auto.
    destruct (startsWith (trim s) "{"); [|done].
    destruct (JSON_parse (trim s)); simpl; auto. done.
  - destruct (size props =? 0)%nat; simpl; auto. done.
Qed.

Lemma checkProfileCompleteness_status (r : ParseResult) :
  isValid (checkProfileCompleteness r) = false ->
  status (checkProfileCompleteness r) = Some "parse_error"
  \/ status (checkProfileCompleteness r) = Some "low_confidence"
  \/ status (checkProfileCompleteness r) = Some "incomplete_profile"
  \/ status (checkProfileCompleteness r) = Some "no_data".
Proof.
  unfold checkProfileCompleteness.
  repeat match goal with
  | |- context [match ?x with _ => _ end] => destruct x
  end; simpl; auto. done.
Qed.

(** The guard on a result of [parseSurvey]: a failure is a parse error or an
    incomplete profile. *)
Lemma completeness_of_parsed (inp : input) (isOcr : bool) (r : ParseResult) :
  parseSurvey inp isOcr = Ret r ->
  (error r = None -> (0.54 <= confidence r)%Q)
  /\ status (checkProfileCompleteness r) <> Some "low_confidence"
  /\ status (checkProfileCompleteness r) <> Some "no_data".
Proof.
  unfold parseSurvey. destruct (parse_attempt inp isOcr) as [ans|msg] eqn:E.
  - intros [= <-]. simpl.
    apply parse_attempt_keys, keys_in_size in E.
    pose proof (calculateConfidence_floor ans isOcr E) as Hconf.
    split; [done|].
    unfold checkProfileCompleteness. simpl.
    destruct (Qlt_bool (calculateConfidence ans isOcr) CONFIG.MIN_CONFIDENCE) eqn:Hlow.
    { apply Qlt_bool_true in Hlow. unfold CONFIG.MIN_CONFIDENCE in Hlow. lra. }
    destruct (Qlt_bool CONFIG.MAX_MISSING_PERCENTAGE _) eqn:Hmiss; [by simpl|].
    destruct (count_values is_parsed ans =? 0)%nat eqn:Hnone; [|by simpl].
    exfalso. apply Nat.eqb_eq in Hnone.
    assert (Hall : getMissingFields ans = CORE_FIELDS).
    { unfold getMissingFields, CORE_FIELDS. simpl.
      by rewrite !(nothing_parsed ans _ Hnone). }
    rewrite Hall in Hmiss. vm_compute in Hmiss. discriminate Hmiss.
  - intros [= <-]. simpl. split; [done|]. by split.
Qed.

(** The error the stages after the parse report. *)
Lemma analyse_parsed_error (r : ParseResult) (trace : list StepResult) :
  pipeline_error (analyse_parsed r trace) =
    let c := checkProfileCompleteness r in
    if isValid c then None
    else Some (createErrorResponse (status c) (reason c)
                 (Some (match check_missing_fields c with
                        | Some m => m
                        | None => missing_fields r
                        end))
                 (Some (answers r, confidence r))).
Proof.
  unfold analyse_parsed. cbv zeta.
  destruct (isValid (checkProfileCompleteness r)); cbn [negb]; [|reflexivity].
  by destruct (if negb _ then _ else _).
Qed.

(** The error of the whole pipeline: that of the input guard, else that of
    the completeness guard on the parse result. *)
Lemma runAnalysisPipeline_error (inp : input) (options : Options) (r : ParseResult) :
  parseSurvey inp (isOcr options) = Ret r ->
  pipeline_error (runAnalysisPipeline inp options) =
    if isValid (validateInput inp) then pipeline_error (analyse_parsed r [step_success "input_validation"])
    else Some (createErrorResponse (status (validateInput inp))
                 (reason (validateInput inp)) None None).
Proof.
  intros Hr. unfold runAnalysisPipeline. cbv zeta.
  destruct (isValid (validateInput inp)); cbn [negb]; [|reflexivity].
  by rewrite Hr.
Qed.

Lemma runAnalysisPipeline_success (inp : input) (options : Options) :
  pipeline_success (runAnalysisPipeline inp options) = true
  \/ exists e, pipeline_error (runAnalysisPipeline inp options) = Some e
       /\ pipeline_success (runAnalysisPipeline inp options) = false.
Proof.
  unfold runAnalysisPipeline. cbv zeta.
  destruct (isValid (validateInput inp)); cbn [negb]; [|right; eauto].
  destruct (parseSurvey inp (isOcr options)); [|right; eauto].
  unfold analyse_parsed. cbv zeta.
  destruct (isValid (checkProfileCompleteness a)); cbn [negb]; [|right; eauto].
  left. by destruct (if negb _ then _ else _).
Qed.

(** The statuses the pipeline can report. *)
Lemma runAnalysisPipeline_status (inp : input) (options : Options) (e : ErrorResponse) :
  pipeline_error (runAnalysisPipeline inp options) = Some e ->
  (isValid (validateInput inp) = false /\ err_status e = status (validateInput inp))
  \/ (isValid (validateInput inp) = true
      /\ (err_status e = Some "parse_error" \/ err_status e = Some "incomplete_profile")).
Proof.
  destruct (parseSurvey_total inp (isOcr options)) as [r Hr].
  rewrite (runAnalysisPipeline_error inp options r Hr).
  destruct (isValid (validateInput inp)) eqn:Hv.
  - rewrite analyse_parsed_error. cbv zeta.
    destruct (isValid (checkProfileCompleteness r)) eqn:Hc; [done|].
    intros [= <-]. right. split; [done|]. simpl.
    pose proof (completeness_of_parsed inp (isOcr options) r Hr) as (_ & Hl & Hn).
    destruct (checkProfileCompleteness_status r Hc) as [H|[H|[H|H]]]; auto; congruence.
  - intros [= <-]. left. by split.
Qed.

(** C10.  A result of [parseSurvey] without an error has a confidence of at
    least 0.54; on every result of [parseSurvey] the completeness guard
    answers neither low_confidence nor no_data, and the pipeline reports
    neither. *)
Theorem low_confidence_and_no_data_unreachable (inp : input) (options : Options) :
  (exists r, parseSurvey inp (isOcr options) = Ret r
     /\ (error r = None -> (0.54 <= confidence r)%Q)
     /\ status (checkProfileCompleteness r) <> Some "low_confidence"
     /\ status (checkProfileCompleteness r) <> Some "no_data")
  /\ (forall e, pipeline_error (runAnalysisPipeline inp options) = Some e ->
        err_status e <> Some "low_confidence" /\ err_status e <> Some "no_data").
Proof.
  destruct (parseSurvey_total inp (isOcr options)) as [r Hr].
  pose proof (completeness_of_parsed inp (isOcr options) r Hr) as (Hc & Hl & Hn).
  split; [by exists r|].
  intros e He. apply runAnalysisPipeline_status in He as [[Hv ->]|[_ [-> | ->]]]; try done.
  destruct (validateInput_status inp Hv) as [-> | [-> | ->]]; by split.
Qed.

(** The pipeline never reports invalid_ocr, whatever the input and the
    options. *)
Lemma pipeline_never_invalid_ocr (inp : input) (options : Options) (e : ErrorResponse) :
  pipeline_error (runAnalysisPipeline inp options) = Some e ->
  err_status e <> Some "invalid_ocr".
Proof.
  intros He. apply runAnalysisPipeline_status in He as [[Hv ->]|[_ [-> | ->]]]; try done.
  by destruct (validateInput_status inp Hv) as [-> | [-> | ->]].
Qed.

(** The status code of the main route: 400 exactly for the status
    invalid_input, 200 otherwise. *)
Lemma post_analyze_statusCode (req : AnalyzeRequest) :
  statusCode (post_analyze req) =
    if isValid (validateInput (req_input req)) then 200%Z
    else match status (validateInput (req_input req)) with
         | Some s => if String.eqb s "invalid_input" then 400%Z else 200%Z
         | None => 200%Z
         end.
Proof.
  unfold post_analyze. cbv zeta.
  set (options := {| isOcr := req_isOcr req; validateSchemas := _; stopOnWarning := _ |}).
  destruct (runAnalysisPipeline_success (req_input req) options) as [Hs|(e & He & Hs)];
    rewrite Hs; cbn [negb statusCode].
  - destruct (isValid (validateInput (req_input req))) eqn:Hv; [done|].
    unfold runAnalysisPipeline in Hs. rewrite Hv in Hs. done.
  - rewrite He. apply runAnalysisPipeline_status in He as [[Hv ->]|[-> [-> | ->]]].
    + by rewrite Hv.
    + done.
    + done.
Qed.

(** C2, at the empty string and at the empty object: the input guard fails
    with empty_input, the main route answers 200 with that error, the legacy
    route answers 400. *)
Theorem post_analyze_empty_input :
  status (validateInput (InStr EmptyString)) = Some "empty_input"
  /\ statusCode (post_analyze (request (InStr EmptyString) false)) = 200%Z
  /\ response_status (post_analyze (request (InStr EmptyString) false)) = Some "empty_input"
  /\ statusCode (post_analyze_legacy (request (InStr EmptyString) false)) = 400%Z
  /\ status (validateInput (InObject ∅)) = Some "empty_input"
  /\ statusCode (post_analyze (request (InObject ∅) false)) = 200%Z
  /\ response_status (post_analyze (request (InObject ∅) false)) = Some "empty_input"
  /\ statusCode (post_analyze_legacy (request (InObject ∅) false)) = 400%Z.
Proof. repeat split; vm_compute; reflexivity. Qed.

(** The same for a text that opens a brace and is rejected by JSON.parse. *)
Lemma post_analyze_invalid_json (s msg : string) :
  is_empty (trim s) = false -> startsWith (trim s) "{" = true ->
  JSON_parse (trim s) = Throw msg ->
  status (validateInput (InStr s)) = Some "invalid_json"
  /\ statusCode (post_analyze (request (InStr s) false)) = 200%Z.
Proof.
  intros Hne Hbrace Hjson.
  assert (Hv : validateInput (InStr s) = invalid "invalid_json" ("Invalid JSON format: " ++ msg)).
  { unfold validateInput. destruct (trim s) eqn:Ht; [done|].
    cbn [String.length Nat.eqb]. by rewrite Hbrace, Hjson. }
  split; [by rewrite Hv|].
  rewrite post_analyze_statusCode. cbn [req_input request]. by rewrite Hv.
Qed.

(** C3, at the OCR text [Age: 42]: the text guard rejects it as too short,
    the legacy route answers 400 with invalid_ocr, the pipeline halts at the
    parse step with incomplete_profile. *)
Theorem pipeline_short_ocr_text :
  let text := InStr "Age: 42" in
  let options := {| isOcr := true; validateSchemas := true; stopOnWarning := false |} in
  ocr_isValid (validateOcrText text) = false
  /\ response_status (post_analyze_legacy (request text true)) = Some "invalid_ocr"
  /\ statusCode (post_analyze_legacy (request text true)) = 400%Z
  /\ pipeline_success (runAnalysisPipeline text options) = false
  /\ List.map step (steps (runAnalysisPipeline text options)) = ["input_validation"; "parse"]
  /\ (err_status <$> pipeline_error (runAnalysisPipeline text options))
       = Some (Some "incomplete_profile").
Proof. repeat split; vm_compute; reflexivity. Qed.

(** A short OCR text can even pass the whole pipeline. *)
Example pipeline_accepts_short_ocr_text :
  let text := InStr "age 1diet" in
  let options := {| isOcr := true; validateSchemas := true; stopOnWarning := false |} in
  ocr_isValid (validateOcrText text) = false
  /\ pipeline_success (runAnalysisPipeline text options) = true.
Proof. split; vm_compute; reflexivity. Qed.

End WithEngine.
End PipelineFacts.

(** ** The scenarios of the specification, run on the model *)

Module Scenarios.
Import JS SurveyParser Guardrails FactorExtractor RiskClassifier RecommendationEngine
  SchemaValidator Pipeline Server Notions.

Section WithEngine.
Context {engine : Engine}.

Example scenario_A_factors :
  factors (extractFactors scenario_A) =
    ["smoking"; "poor diet"; "low exercise"; "high stress"; "poor sleep"; "middle age"].
Proof. vm_compute. reflexivity. Qed.

Example scenario_A_risk :
  let r := classifyRisk (factors (extractFactors scenario_A)) scenario_A in
  score r = 94%Z /\ risk_level r = "very high"
  /\ rationale r = ["smoking"; "high sugar diet"; "low physical activity"; "chronic stress";
                    "inadequate sleep (5 hours)"].
Proof. repeat split; vm_compute; reflexivity. Qed.

Example scenario_B_pipeline :
  let r := runAnalysisPipeline (InObject scenario_B) (default_options false) in
  (data_factors <$> data r) = Some []
  /\ (data_score <$> data r) = Some 0%Z
  /\ (data_risk_level <$> data r) = Some "low"
  /\ (data_recommendations <$> data r) = Some [].
Proof. repeat split; vm_compute; reflexivity. Qed.

Example ocr_scenario :
  let text := InStr "Age: 42
Smoker: Yes
Exercise: Rarely
Diet: High sugar" in
  parseSurvey text true =
    Ret {| answers := <["age" := VNum (of_Z 42)]> (<["smoker" := VBool true]>
                      (<["exercise" := VStr "rarely"]> (<["diet" := VStr "high sugar"]> ∅)));
           missing_fields := [];
           confidence := 0.90;
           error := None |}.
Proof. vm_compute. reflexivity. Qed.

(** A label outside the score table adds nothing. *)
Example unknown_label_scores_zero :
  score (classifyRisk ["smoking"; "left-handed"] ∅) = 25%Z.
Proof. vm_compute. reflexivity. Qed.

(** The lowest confidence an OCR text reaches here: three core fields
    missing, one null. *)
Example low_ocr_confidence :
  (confidence <$> (match parseSurvey (InStr "smoker:") true with
                   | Ret r => Some r
                   | Throw _ => None
                   end)) = Some 0.68%Q.
Proof. vm_compute. reflexivity. Qed.

Example clamping_round_trip :
  let r := validateAnswerRanges (<["age" := VNum (of_Z 200)]> ∅) in
  get (correctedAnswers r) "age" = VNum (of_Z 150)
  /\ List.map action (corrections r) = ["clamped_to_max"].
Proof. split; vm_compute; reflexivity. Qed.

End WithEngine.

(** Eight matched recommendations are cut to five, in priority order. *)
Example recommendation_cap :
  let r := generateRecommendations
             ["smoking"; "poor diet"; "low exercise"; "excessive alcohol"; "poor sleep";
              "high stress"; "obesity"; "advanced age"] "very high" in
  recommendations r =
    ["Quit smoking"; "Improve your diet"; "Reduce alcohol consumption";
     "Work towards healthy weight"; "Increase physical activity"]
  /\ List.map priority (detailed_recommendations r) = [1; 2; 2; 2; 3]%Z.
Proof. split; vm_compute; reflexivity. Qed.

(** With the advanced age factor the general check-up entry is skipped and
    the hydration entry is kept. *)
Example general_entry_skipped :
  recommendations (generateRecommendations ["advanced age"] "high") =
    ["Regular health checkups"; "Stay hydrated"]
  /\ recommendations (generateRecommendations ["smoking"] "high") =
    ["Quit smoking"; "Stay hydrated"; "Regular health checkups"]
  /\ recommendations (generateRecommendations ["smoking"] "moderate") = ["Quit smoking"].
Proof. repeat split; vm_compute; reflexivity. Qed.

(** Low exercise and obesity, both of weight 0.85, in table order. *)
Example equal_weights_keep_table_order :
  factors (extractFactors (<["bmi" := VNum (of_Z 31)]> (<["exercise" := VStr "never"]>
                           (<["smoker" := VBool true]> ∅)))) =
    ["smoking"; "low exercise"; "obesity"].
Proof. vm_compute. reflexivity. Qed.

End Scenarios.

(** * Further properties of the services *)

(** ** riskClassifier.js *)

Module RiskClassifierProperties.
Import JS JSFacts RiskClassifier Notions RiskClassifierFacts.
Local Open Scope Z_scope.

Section WithEngine.
Context {engine : Engine}.

(** X1.  The age base never falls when a numeric age grows. *)
Theorem getAgeBaseRisk_monotone (q1 q2 : Q) :
  (q1 <= q2)%Q -> getAgeBaseRisk (VNum (Fin q1)) <= getAgeBaseRisk (VNum (Fin q2)).
Proof.
  intros H. rewrite !getAgeBaseRisk_number.
  repeat match goal with
  | |- context [Qlt_bool ?x ?y] =>
      let E := fresh "E" in
      destruct (Qlt_bool x y) eqn:E;
      [apply Qlt_bool_true in E | apply Qlt_bool_false in E]
  end; try lia; exfalso; lra.
Qed.

Lemma score_range (factors : list string) (ans : gmap string value) :
  0 <= score (classifyRisk factors ans) <= 100.
Proof.
  unfold classifyRisk. cbn [score]. rewrite fold_scores.
  pose proof (getAgeBaseRisk_range (get ans "age")).
  pose proof (sum_scores_nonneg factors). lia.
Qed.

Lemma sum_scores_perm (l1 l2 : list string) :
  l1 ≡ₚ l2 -> sum_scores l1 = sum_scores l2.
Proof. induction 1; simpl; lia. Qed.

(** X2.  The score and the level depend on the factors as a multiset: any
    reordering of the factor list gives the same score and level. *)
Theorem classifyRisk_permutation (l1 l2 : list string) (ans : gmap string value) :
  l1 ≡ₚ l2 ->
  score (classifyRisk l1 ans) = score (classifyRisk l2 ans)
  /\ risk_level (classifyRisk l1 ans) = risk_level (classifyRisk l2 ans).
Proof.
  intros H.
  assert (Hs : score (classifyRisk l1 ans) = score (classifyRisk l2 ans)).
  { unfold classifyRisk. simpl. rewrite !fold_scores. by rewrite (sum_scores_perm l1 l2 H). }
  split; [exact Hs|]. unfold classifyRisk in *. simpl in *. by rewrite Hs.
Qed.

Lemma rationale_of_length (ans : gmap string value) (f : string) :
  length (rationale_of ans f) = if String.eqb f "middle age" then 0%nat else 1%nat.
Proof.
  unfold rationale_of.
  destruct (String.eqb_spec f "middle age") as [->|Hne]; [reflexivity|].
  repeat match goal with
  | |- context [if String.eqb f ?s then _ else _] => destruct (String.eqb f s)
  end; reflexivity.
Qed.

(** X3.  The rationale holds one string for each factor of the list, the
    factor middle age left out. *)
Theorem rationale_length (factors : list string) (ans : gmap string value) :
  length (rationale (classifyRisk factors ans)) =
  length (List.filter (fun f => negb (String.eqb f "middle age")) factors).
Proof.
  unfold classifyRisk. simpl. unfold generateRationale.
  induction factors as [|f fs IH]; simpl; [done|].
  rewrite length_app, rationale_of_length, IH.
  by destruct (String.eqb f "middle age").
Qed.

End WithEngine.

Lemma getAgeBaseRisk_monotone_witness :
  (29 <= 45)%Q /\
  getAgeBaseRisk (engine := strict_engine) (VNum (Fin 29))
    <= getAgeBaseRisk (engine := strict_engine) (VNum (Fin 45)).
Proof.
  assert (H : (29 <= 45)%Q) by (unfold Qle; simpl; lia).
  split; [exact H|].
  exact (getAgeBaseRisk_monotone (engine := strict_engine) 29 45 H).
Defined.

Lemma classifyRisk_permutation_witness :
  ["smoking"; "obesity"] ≡ₚ ["obesity"; "smoking"] /\
  score (classifyRisk (engine := strict_engine) ["smoking"; "obesity"] ∅)
  = score (classifyRisk (engine := strict_engine) ["obesity"; "smoking"] ∅).
Proof.
  assert (H : ["smoking"; "obesity"] ≡ₚ ["obesity"; "smoking"]) by apply Permutation_swap.
  split; [exact H|].
  exact (proj1 (classifyRisk_permutation (engine := strict_engine) _ _ ∅ H)).
Defined.

End RiskClassifierProperties.

(** ** factorExtractor.js *)

Module FactorExtractorProperties.
Import JS JSFacts JSArray FactorExtractor Notions.

Lemma filter_sublist {A} (f : A -> bool) (l : list A) : sublist (List.filter f l) l.
Proof.
  induction l as [|x l IH]; simpl; [constructor|].
  destruct (f x); by constructor.
Qed.

Lemma map_sublist {A B} (g : A -> B) (l1 l2 : list A) :
  sublist l1 l2 -> sublist (List.map g l1) (List.map g l2).
Proof. induction 1; simpl; by constructor. Qed.

Lemma factors_perm (ans : gmap string value) :
  factors (extractFactors ans) ≡ₚ List.map label (List.filter (rule_matches ans) FACTOR_RULES).
Proof.
  unfold extractFactors. cbn [factors].
  rewrite (Permutation_map detail_label (SortFacts.sort_perm by_weight_desc _)).
  rewrite List.map_map. reflexivity.
Qed.

Lemma factor_has_rule (ans : gmap string value) (l : string) :
  l ∈ factors (extractFactors ans) ->
  exists rule, In rule FACTOR_RULES /\ label rule = l /\ check rule ans = Ret true.
Proof.
  rewrite (factors_perm ans), list_elem_of_In, in_map_iff.
  intros (rule & Hl & Hin). apply filter_In in Hin as [Hin Hm].
  exists rule. repeat split; try done.
  unfold rule_matches in Hm. destruct (check rule ans) as [[]|]; done.
Qed.

(** X4.  A label is among the extracted factors exactly when a rule of the
    table carrying that label matches the answers; sorting adds and loses
    nothing. *)
Theorem factors_membership (ans : gmap string value) (l : string) :
  l ∈ factors (extractFactors ans) <->
  exists rule, In rule FACTOR_RULES /\ label rule = l /\ check rule ans = Ret true.
Proof.
  split; [apply factor_has_rule|].
  intros (rule & Hin & Hl & Hc).
  rewrite (factors_perm ans), list_elem_of_In, in_map_iff.
  exists rule. split; [done|].
  apply filter_In. split; [done|]. unfold rule_matches. by rewrite Hc.
Qed.

(** X5.  The extracted factors are pairwise distinct labels of the rule
    table, so there are at most ten of them. *)
Theorem factors_distinct (ans : gmap string value) :
  NoDup (factors (extractFactors ans))
  /\ (forall l, l ∈ factors (extractFactors ans) -> In l (List.map label FACTOR_RULES))
  /\ (length (factors (extractFactors ans)) <= 10)%nat.
Proof.
  pose proof (map_sublist label _ _ (filter_sublist (rule_matches ans) FACTOR_RULES)) as Hsub.
  split; [|split].
  - rewrite (factors_perm ans). eapply sublist_NoDup; [|exact Hsub].
    apply NoDup_ListNoDup. repeat constructor; simpl; intuition discriminate.
  - intros l Hl. rewrite (factors_perm ans) in Hl. apply list_elem_of_In.
    eapply sublist_subseteq; [exact Hsub|]. done.
  - rewrite (factors_perm ans). apply sublist_length in Hsub. exact Hsub.
Qed.

Lemma num_ge_not_lt (n k : number) : num_ge n k = true -> num_lt n k = false.
Proof.
  destruct n as [|[]|x], k as [|[]|y]; simpl; try done.
  unfold Qlt_bool. by intros ->.
Qed.

(** The rule behind a label. *)
Lemma rule_of_label (ans : gmap string value) (l : string) (rule : Rule) :
  In rule FACTOR_RULES -> label rule = l -> check rule ans = Ret true ->
  (l = "obesity" -> exists n, get ans "bmi" = VNum n /\ num_ge n (of_Z 30) = true)
  /\ (l = "overweight" ->
        exists n, get ans "bmi" = VNum n /\ num_ge n (of_Z 25) = true
                  /\ num_lt n (of_Z 30) = true)
  /\ (l = "advanced age" -> exists n, get ans "age" = VNum n /\ num_ge n (of_Z 60) = true)
  /\ (l = "middle age" ->
        exists n, get ans "age" = VNum n /\ num_ge n (of_Z 40) = true
                  /\ num_lt n (of_Z 60) = true)
  /\ (l = "smoking" -> get ans "smoker" = VBool true).
Proof.
  intros Hin Hl Hc. simpl in Hin.
  repeat (destruct Hin as [<-|Hin]); try done; simpl in Hl, Hc; subst l;
    repeat split; try discriminate; intros _.
  - destruct (get ans "smoker") as [| |[]| |]; simpl in Hc; congruence.
  - destruct (get ans "bmi") as [| | |n|]; try discriminate Hc.
    exists n. split; [done|]. congruence.
  - destruct (get ans "bmi") as [| | |n|]; try discriminate Hc.
    exists n. injection Hc as Hc. apply andb_true_iff in Hc as [? ?]. by repeat split.
  - destruct (get ans "age") as [| | |n|]; try discriminate Hc.
    exists n. split; [done|]. congruence.
  - destruct (get ans "age") as [| | |n|]; try discriminate Hc.
    exists n. injection Hc as Hc. apply andb_true_iff in Hc as [? ?]. by repeat split.
Qed.

Lemma num_ge_trans_Z (n : number) (a b : Z) :
  (a <= b)%Z -> num_ge n (of_Z b) = true -> num_ge n (of_Z a) = true.
Proof.
  intros Hab. destruct n as [|[]|x]; simpl; try done.
  rewrite !Qle_bool_iff. intros H. eapply Qle_trans; [|exact H].
  unfold Qle. simpl. lia.
Qed.

(** X6.  One body-mass index gives at most one of obesity and overweight,
    one age at most one of advanced age and middle age. *)
Theorem factors_exclusive (ans : gmap string value) :
  ~ ("obesity" ∈ factors (extractFactors ans) /\ "overweight" ∈ factors (extractFactors ans))
  /\ ~ ("advanced age" ∈ factors (extractFactors ans)
        /\ "middle age" ∈ factors (extractFactors ans)).
Proof.
  split; intros [H1 H2];
    apply factor_has_rule in H1 as (r1 & Hin1 & Hl1 & Hc1);
    apply factor_has_rule in H2 as (r2 & Hin2 & Hl2 & Hc2);
    pose proof (rule_of_label ans _ r1 Hin1 Hl1 Hc1) as (Ha & _ & Hc & _);
    pose proof (rule_of_label ans _ r2 Hin2 Hl2 Hc2) as (_ & Hb & _ & Hd & _).
  - destruct (Ha eq_refl) as (n & Hn & Hge). destruct (Hb eq_refl) as (m & Hm & _ & Hlt).
    rewrite Hn in Hm. injection Hm as <-. apply num_ge_not_lt in Hge. congruence.
  - destruct (Hc eq_refl) as (n & Hn & Hge). destruct (Hd eq_refl) as (m & Hm & _ & Hlt).
    rewrite Hn in Hm. injection Hm as <-. apply num_ge_not_lt in Hge. congruence.
Qed.

(** X7.  The confidence of the extraction lies between 0.5 and 1. *)
Theorem factor_confidence_bounds (ans : gmap string value) :
  (0.5 <= factor_confidence (extractFactors ans) <= 1)%Q.
Proof.
  unfold extractFactors. cbn [factor_confidence]. unfold calculateFactorConfidence.
  cbv zeta. cbn [fold_left].
  generalize (List.map label (List.filter (rule_matches ans) FACTOR_RULES)). intros fs.
  destruct (is_nullish (get ans "smoker")), (is_nullish (get ans "diet")),
    (is_nullish (get ans "exercise")),
    ((length fs =? 0)%nat && (size ans <? 3)%nat);
    split; apply Qle_bool_iff; vm_compute; reflexivity.
Qed.

End FactorExtractorProperties.

(** ** recommendationEngine.js *)

Module RecommendationProperties.
Import JS JSArray RecommendationEngine Notions RecommendationFacts.
Local Open Scope Z_scope.





End RecommendationProperties.

(** ** guardrails.js: the range guard *)

Module RangeGuardProperties.
Import JS JSFacts SurveyParser Guardrails Notions MoreNotions GuardrailsFacts.

Lemma of_Z_lt (a b : Z) : num_lt (of_Z a) (of_Z b) = (a <? b)%Z.
Proof.
  simpl. destruct (Z.ltb_spec a b) as [H|H].
  - apply Qlt_bool_true. unfold Qlt. simpl. lia.
  - apply Qlt_bool_false. unfold Qle. simpl. lia.
Qed.

(** What the two comparisons of the clamp say about a number. *)
Lemma not_clamped_in_bounds (lo hi : Z) (n : number) :
  num_lt n (of_Z lo) = false -> num_gt n (of_Z hi) = false -> in_bounds lo hi (VNum n).
Proof.
  unfold num_gt. destruct n as [|[]|q]; simpl; try done.
  intros H1 H2. apply Qlt_bool_false in H1, H2. by split.
Qed.

Lemma in_bounds_not_clamped (lo hi : Z) (n : number) :
  in_bounds lo hi (VNum n) -> num_lt n (of_Z lo) = false /\ num_gt n (of_Z hi) = false.
Proof.
  unfold num_gt. destruct n as [|[]|q]; simpl; try done.
  intros [H1 H2]. split; by apply Qlt_bool_false.
Qed.

Section WithEngine.
Context {engine : Engine}.

Lemma clamp_field_result (name : string) (lo hi : Z) (n : number)
    (a : gmap string value) (cs : list Correction) :
  (lo <= hi)%Z -> get a name = VNum n ->
  exists m, get (clamp_field name lo hi (VNum n) (a, cs)).1 name = VNum m
            /\ in_bounds lo hi (VNum m).
Proof.
  intros Hlh Ha. unfold clamp_field, lt_num, gt_num. cbn [ToNumber].
  destruct (num_lt n (of_Z lo)) eqn:Hlo.
  - exists (of_Z lo). split; [unfold get; simpl; by rewrite lookup_insert_eq|].
    simpl. unfold Qle. simpl. lia.
  - destruct (num_gt n (of_Z hi)) eqn:Hhi.
    + exists (of_Z hi). split; [unfold get; simpl; by rewrite lookup_insert_eq|].
      simpl. unfold Qle. simpl. lia.
    + exists n. split; [done|]. by apply not_clamped_in_bounds.
Qed.

Lemma dom_insert_present (k : string) (v : value) (a : gmap string value) :
  k ∈ dom a -> dom (<[k := v]> a) = dom a.
Proof. intros H. apply dom_insert_lookup_L. by apply elem_of_dom. Qed.

Lemma clamp_field_dom (name : string) (lo hi : Z) (v : value)
    (a : gmap string value) (cs : list Correction) :
  name ∈ dom a -> dom (clamp_field name lo hi v (a, cs)).1 = dom a.
Proof.
  intros Hin. unfold clamp_field.
  destruct (lt_num v lo); [simpl; by apply dom_insert_present|].
  destruct (gt_num v hi); [simpl; by apply dom_insert_present|done].
Qed.

Lemma get_not_undefined_dom (a : gmap string value) (k : string) :
  is_nullish (get a k) = false -> k ∈ dom a.
Proof.
  unfold get. intros H. apply elem_of_dom. destruct (a !! k); [eauto|done].
Qed.

Lemma truthy_number (parse : value -> number) (v : value) :
  js_or (VNum (parse v)) VNull = VNull
  \/ js_or (VNum (parse v)) VNull = VNum (parse v).
Proof. unfold js_or. destruct (truthy (VNum (parse v))); auto. Qed.

Lemma coerce_and_clamp_result (name : string) (parse : value -> number) (lo hi : Z)
    (ans a : gmap string value) (cs : list Correction) :
  (lo <= hi)%Z ->
  let r := (coerce_and_clamp name parse lo hi ans (a, cs)).1 in
  number_or_nullish (get r name) /\ in_bounds lo hi (get r name) /\ dom r = dom a.
Proof.
  intros Hlh. cbv zeta. unfold coerce_and_clamp.
  destruct (is_nullish (get a name)) eqn:Hnull.
  { simpl. repeat split; [by left|]. destruct (get a name); done. }
  pose proof (get_not_undefined_dom a name Hnull) as Hdom.
  destruct (is_number (get a name)) eqn:Hnum; cbn [negb].
  - destruct (get a name) as [| | |n|] eqn:Hv; try done. cbn [is_null negb].
    destruct (clamp_field_result name lo hi n a cs Hlh Hv) as (m & -> & Hm).
    repeat split; [by right|done|]. by apply clamp_field_dom.
  - destruct (truthy_number parse (get a name)) as [->| ->]; cbn [is_null negb].
    + simpl. unfold get at 1 2. rewrite lookup_insert_eq. simpl.
      repeat split; [by left|]. by apply dom_insert_present.
    + assert (Hv : get (<[name := VNum (parse (get a name))]> a) name
                   = VNum (parse (get a name))).
      { unfold get. by rewrite lookup_insert_eq. }
      destruct (clamp_field_result name lo hi _ _
        (cs ++ [{| field := name; action := "type_conversion"; original := get ans name |}])%list
        Hlh Hv) as (m & -> & Hm).
      repeat split; [by right|done|].
      rewrite clamp_field_dom; [by apply dom_insert_present|].
      apply elem_of_dom. rewrite lookup_insert_eq. eauto.
Qed.

Lemma clamp_sleep_result (acc : gmap string value * list Correction) :
  in_bounds 0 24 (get (clamp_sleep acc).1 "sleep") /\ dom (clamp_sleep acc).1 = dom acc.1.
Proof.
  destruct acc as [a cs]. unfold clamp_sleep. cbn [fst].
  destruct (get a "sleep") as [| | |n|] eqn:Hv;
    cbn [is_nullish is_undefined is_null orb negb is_number andb fst];
    try (rewrite Hv; done).
  destruct (clamp_field_result "sleep" CONFIG.SLEEP_MIN CONFIG.SLEEP_MAX n a cs
              ltac:(done) Hv) as (m & -> & Hm).
  split; [done|]. apply clamp_field_dom, elem_of_dom. unfold get in Hv.
  destruct (a !! "sleep"); [eauto|done].
Qed.

Lemma normalize_smoker_other (k : string) (ans : gmap string value)
    (acc : gmap string value * list Correction) :
  k <> "smoker" -> (normalize_smoker ans acc).1 !! k = acc.1 !! k.
Proof.
  intros Hk. destruct acc as [a cs]. unfold normalize_smoker.
  destruct (get a "smoker"); try done.
  destruct (array_includes _ _); [simpl; by rewrite lookup_insert_ne|].
  destruct (array_includes _ _); [simpl; by rewrite lookup_insert_ne|done].
Qed.

Lemma normalize_smoker_result (ans : gmap string value)
    (acc : gmap string value * list Correction) :
  smoker_settled (get (normalize_smoker ans acc).1 "smoker")
  /\ dom (normalize_smoker ans acc).1 = dom acc.1.
Proof.
  destruct acc as [a cs]. unfold normalize_smoker, smoker_settled.
  destruct (get a "smoker") as [| | | |s] eqn:Hv; cbn [fst]; rewrite ?Hv; try done.
  assert (Hdom : "smoker" ∈ dom a).
  { apply elem_of_dom. unfold get in Hv. destruct (a !! "smoker"); [eauto|done]. }
  destruct (array_includes ["yes"; "true"; "1"; "y"] (toLowerCase s)) eqn:Ht.
  { cbn [fst]. unfold get. rewrite lookup_insert_eq. simpl. split; [done|].
    by apply dom_insert_present. }
  destruct (array_includes ["no"; "false"; "0"; "n"] (toLowerCase s)) eqn:Hf.
  { cbn [fst]. unfold get. rewrite lookup_insert_eq. simpl. split; [done|].
    by apply dom_insert_present. }
  cbn [fst]. rewrite Hv. split; [|done]. intros s' [= <-]. by split.
Qed.

(** The four blocks of the guard, each seen at its own key. *)
Lemma validateAnswerRanges_parts (ans : gmap string value) :
  let c := correctedAnswers (validateAnswerRanges ans) in
  dom c = dom ans /\ settled c.
Proof.
  cbv zeta. unfold validateAnswerRanges. cbv zeta. cbn [correctedAnswers].
  remember (coerce_and_clamp "age" parseInt CONFIG.AGE_MIN CONFIG.AGE_MAX ans (ans, []))
    as s1 eqn:E1.
  remember (coerce_and_clamp "bmi" parseFloat CONFIG.BMI_MIN CONFIG.BMI_MAX ans s1)
    as s2 eqn:E2.
  remember (clamp_sleep s2) as s3 eqn:E3.
  remember (normalize_smoker ans s3) as s4 eqn:E4.
  assert (Hage : number_or_nullish (get s1.1 "age") /\ in_bounds 0 150 (get s1.1 "age")
                 /\ dom s1.1 = dom ans).
  { rewrite E1. apply (coerce_and_clamp_result "age" parseInt 0 150 ans ans []). lia. }
  assert (Hbmi : number_or_nullish (get s2.1 "bmi") /\ in_bounds 10 100 (get s2.1 "bmi")
                 /\ dom s2.1 = dom s1.1).
  { rewrite E2. destruct s1 as [a1 cs1].
    apply (coerce_and_clamp_result "bmi" parseFloat 10 100 ans a1 cs1). lia. }
  assert (Hsleep : in_bounds 0 24 (get s3.1 "sleep") /\ dom s3.1 = dom s2.1).
  { rewrite E3. apply clamp_sleep_result. }
  assert (Hsmoker : smoker_settled (get s4.1 "smoker") /\ dom s4.1 = dom s3.1).
  { rewrite E4. apply normalize_smoker_result. }
  assert (Hk1 : get s4.1 "age" = get s1.1 "age").
  { unfold get. rewrite E4, E3, E2. rewrite normalize_smoker_other by done.
    rewrite clamp_sleep_other by done. by rewrite coerce_and_clamp_other by done. }
  assert (Hk2 : get s4.1 "bmi" = get s2.1 "bmi").
  { unfold get. rewrite E4, E3. rewrite normalize_smoker_other by done.
    by rewrite clamp_sleep_other by done. }
  assert (Hk3 : get s4.1 "sleep" = get s3.1 "sleep").
  { unfold get. rewrite E4. by rewrite normalize_smoker_other by done. }
  destruct Hage as (Ha1 & Ha2 & Hd1), Hbmi as (Hb1 & Hb2 & Hd2), Hsleep as (Hs & Hd3),
    Hsmoker as (Hm & Hd4).
  split; [congruence|].
  unfold settled. rewrite Hk1, Hk2, Hk3.
  exact (conj Ha1 (conj Ha2 (conj Hb1 (conj Hb2 (conj Hs Hm))))).
Qed.

(** X10.  After the range guard a finite age lies in [0, 150], a finite
    body-mass index in [10, 100] and a finite numeric sleep in [0, 24]; age
    and body-mass index are absent, null or numbers, and no infinity is
    left in any of the three. *)
Theorem validateAnswerRanges_bounds (ans : gmap string value) :
  let c := correctedAnswers (validateAnswerRanges ans) in
  number_or_nullish (get c "age") /\ in_bounds 0 150 (get c "age")
  /\ number_or_nullish (get c "bmi") /\ in_bounds 10 100 (get c "bmi")
  /\ in_bounds 0 24 (get c "sleep").
Proof.
  cbv zeta. destruct (validateAnswerRanges_parts ans) as (_ & H).
  unfold settled in H. tauto.
Qed.

(** X11.  The guard neither adds nor removes a key, and it leaves every key
    other than age, bmi, sleep and smoker as it was. *)
Theorem validateAnswerRanges_frame (ans : gmap string value) :
  dom (correctedAnswers (validateAnswerRanges ans)) = dom ans
  /\ forall k, k <> "age" -> k <> "bmi" -> k <> "sleep" -> k <> "smoker" ->
       correctedAnswers (validateAnswerRanges ans) !! k = ans !! k.
Proof.
  split; [by destruct (validateAnswerRanges_parts ans) as (H & _)|].
  intros k H1 H2 H3 H4. unfold validateAnswerRanges. cbv zeta. cbn [correctedAnswers].
  rewrite normalize_smoker_other by done. rewrite clamp_sleep_other by done.
  by rewrite !coerce_and_clamp_other by done.
Qed.

Lemma coerce_and_clamp_settled (name : string) (parse : value -> number) (lo hi : Z)
    (ans a : gmap string value) (cs : list Correction) :
  number_or_nullish (get a name) -> in_bounds lo hi (get a name) ->
  coerce_and_clamp name parse lo hi ans (a, cs) = (a, cs).
Proof.
  intros Hn Hb. unfold coerce_and_clamp.
  destruct (is_nullish (get a name)) eqn:Hnull; [done|].
  destruct Hn as [Hn|Hn]; [congruence|].
  destruct (get a name) as [| | |n|]; try done. cbn [is_number negb is_null].
  apply in_bounds_not_clamped in Hb as [Hlo Hhi].
  unfold clamp_field, lt_num, gt_num. cbn [ToNumber]. by rewrite Hlo, Hhi.
Qed.

Lemma clamp_sleep_settled (a : gmap string value) (cs : list Correction) :
  in_bounds 0 24 (get a "sleep") -> clamp_sleep (a, cs) = (a, cs).
Proof.
  intros Hb. unfold clamp_sleep. cbn [fst].
  destruct (get a "sleep") as [| | |n|]; try done.
  cbn [is_nullish is_undefined is_null orb negb is_number andb].
  apply in_bounds_not_clamped in Hb as [Hlo Hhi].
  unfold clamp_field, lt_num, gt_num. cbn [ToNumber].
  change (of_Z CONFIG.SLEEP_MIN) with (of_Z 0). change (of_Z CONFIG.SLEEP_MAX) with (of_Z 24).
  by rewrite Hlo, Hhi.
Qed.

Lemma normalize_smoker_settled (ans a : gmap string value) (cs : list Correction) :
  smoker_settled (get a "smoker") -> normalize_smoker ans (a, cs) = (a, cs).
Proof.
  intros Hs. unfold normalize_smoker.
  destruct (get a "smoker") as [| | | |s]; try done.
  destruct (Hs s eq_refl) as [-> ->]. done.
Qed.

Lemma settled_fixed (a : gmap string value) :
  settled a ->
  validateAnswerRanges a =
    {| range_isValid := true; correctedAnswers := a; corrections := [] |}.
Proof.
  intros (Ha1 & Ha2 & Hb1 & Hb2 & Hs & Hm). unfold validateAnswerRanges. cbv zeta.
  rewrite (coerce_and_clamp_settled "age" parseInt _ _ a a [] Ha1 Ha2).
  rewrite (coerce_and_clamp_settled "bmi" parseFloat _ _ a a [] Hb1 Hb2).
  rewrite (clamp_sleep_settled a [] Hs).
  by rewrite (normalize_smoker_settled a a [] Hm).
Qed.

(** X12.  The fixed points of the guard.  The guard returns the answers
    unchanged exactly when they are settled (age and body-mass index absent,
    null or numbers within their bounds, a numeric sleep within its bounds,
    a smoker text outside the guard's word lists); then it reports them
    valid and records no correction. *)
Theorem validateAnswerRanges_settled (a : gmap string value) :
  (settled a <-> correctedAnswers (validateAnswerRanges a) = a)
  /\ (settled a ->
      range_isValid (validateAnswerRanges a) = true
      /\ corrections (validateAnswerRanges a) = []).
Proof.
  split; [split|].
  - intros H. by rewrite (settled_fixed a H).
  - intros H. destruct (validateAnswerRanges_parts a) as [_ Hs].
    cbv zeta in Hs. rewrite H in Hs. exact Hs.
  - intros H. by rewrite (settled_fixed a H).
Qed.

(** X13.  The guard is idempotent: applied to its own corrected answers it
    reports them valid, returns them unchanged and records no correction. *)
Theorem validateAnswerRanges_idempotent (ans : gmap string value) :
  validateAnswerRanges (correctedAnswers (validateAnswerRanges ans)) =
    {| range_isValid := true;
       correctedAnswers := correctedAnswers (validateAnswerRanges ans);
       corrections := [] |}.
Proof.
  apply settled_fixed. by destruct (validateAnswerRanges_parts ans).
Qed.

Lemma clamp_field_growth (name : string) (lo hi : Z) (n : number)
    (a : gmap string value) (cs : list Correction) :
  (length cs <= length (clamp_field name lo hi (VNum n) (a, cs)).2)%nat
  /\ (length (clamp_field name lo hi (VNum n) (a, cs)).2 = length cs ->
      clamp_field name lo hi (VNum n) (a, cs) = (a, cs) /\ in_bounds lo hi (VNum n)).
Proof.
  unfold clamp_field, lt_num, gt_num. cbn [ToNumber].
  destruct (num_lt n (of_Z lo)) eqn:Hlo; [cbn [snd]; rewrite length_app; simpl; lia|].
  destruct (num_gt n (of_Z hi)) eqn:Hhi; [cbn [snd]; rewrite length_app; simpl; lia|].
  split; [done|]. intros _. split; [done|]. by apply not_clamped_in_bounds.
Qed.

Lemma coerce_and_clamp_growth (name : string) (parse : value -> number) (lo hi : Z)
    (ans a : gmap string value) (cs : list Correction) :
  number_or_nullish (get a name) ->
  (length cs <= length (coerce_and_clamp name parse lo hi ans (a, cs)).2)%nat
  /\ (length (coerce_and_clamp name parse lo hi ans (a, cs)).2 = length cs ->
      coerce_and_clamp name parse lo hi ans (a, cs) = (a, cs)
      /\ in_bounds lo hi (get a name)).
Proof.
  intros Hn. unfold coerce_and_clamp.
  destruct (is_nullish (get a name)) eqn:Hnull.
  { split; [done|]. intros _. split; [done|]. by destruct (get a name). }
  destruct Hn as [Hn|Hn]; [congruence|].
  destruct (get a name) as [| | |n|]; try done. cbn [is_number negb is_null].
  apply clamp_field_growth.
Qed.

Lemma clamp_sleep_growth (a : gmap string value) (cs : list Correction) :
  (length cs <= length (clamp_sleep (a, cs)).2)%nat
  /\ (length (clamp_sleep (a, cs)).2 = length cs ->
      clamp_sleep (a, cs) = (a, cs) /\ in_bounds 0 24 (get a "sleep")).
Proof.
  unfold clamp_sleep. cbn [fst].
  destruct (get a "sleep") as [| | |n|]; try done.
  cbn [is_nullish is_undefined is_null orb negb is_number andb].
  apply (clamp_field_growth "sleep" CONFIG.SLEEP_MIN CONFIG.SLEEP_MAX).
Qed.

Lemma normalize_smoker_growth (ans a : gmap string value) (cs : list Correction) :
  (length cs <= length (normalize_smoker ans (a, cs)).2)%nat
  /\ (length (normalize_smoker ans (a, cs)).2 = length cs ->
      normalize_smoker ans (a, cs) = (a, cs) /\ smoker_settled (get a "smoker")).
Proof.
  unfold normalize_smoker, smoker_settled.
  destruct (get a "smoker") as [| | | |s]; try done.
  destruct (array_includes ["yes"; "true"; "1"; "y"] (toLowerCase s)) eqn:Ht;
    [cbn [snd]; rewrite length_app; simpl; lia|].
  destruct (array_includes ["no"; "false"; "0"; "n"] (toLowerCase s)) eqn:Hf;
    [cbn [snd]; rewrite length_app; simpl; lia|].
  split; [done|]. intros _. split; [done|]. by intros s' [= <-].
Qed.

Lemma valid_settled (a : gmap string value) :
  number_or_nullish (get a "age") -> number_or_nullish (get a "bmi") ->
  range_isValid (validateAnswerRanges a) = true ->
  settled a.
Proof.
  intros Hage Hbmi Hvalid.
  unfold validateAnswerRanges in Hvalid. cbv zeta in Hvalid. cbn [range_isValid] in Hvalid.
  apply Nat.eqb_eq in Hvalid.
  destruct (coerce_and_clamp_growth "age" parseInt CONFIG.AGE_MIN CONFIG.AGE_MAX a a [] Hage)
    as [G1 I1].
  destruct (coerce_and_clamp "age" parseInt CONFIG.AGE_MIN CONFIG.AGE_MAX a (a, []))
    as [a1 cs1] eqn:E1.
  destruct (coerce_and_clamp "bmi" parseFloat CONFIG.BMI_MIN CONFIG.BMI_MAX a (a1, cs1))
    as [a2 cs2] eqn:E2.
  destruct (clamp_sleep (a2, cs2)) as [a3 cs3] eqn:E3.
  pose proof (normalize_smoker_growth a a3 cs3) as [G4 I4].
  pose proof (clamp_sleep_growth a2 cs2) as [G3 I3]. rewrite E3 in G3, I3.
  cbn [fst snd] in *.
  rewrite Hvalid in G4, I4.
  assert (Hcs3 : cs3 = []) by (apply length_zero_iff_nil; lia).
  subst cs3. assert (Hcs2 : cs2 = []) by (apply length_zero_iff_nil; simpl in G3; lia).
  subst cs2.
  destruct (I4 eq_refl) as [_ Hsm].
  destruct (I3 eq_refl) as [[= -> ] Hsl].
  assert (Hcs1 : cs1 = []).
  { assert (Hb' : number_or_nullish (get a1 "bmi")).
    { assert (Heq : a1 !! "bmi" = a !! "bmi").
      { change a1 with (a1, cs1).1. rewrite <- E1. by apply coerce_and_clamp_other. }
      unfold get. by rewrite Heq. }
    destruct (coerce_and_clamp_growth "bmi" parseFloat CONFIG.BMI_MIN CONFIG.BMI_MAX
                a a1 cs1 Hb') as [G2 _].
    rewrite E2 in G2. simpl in G2. apply length_zero_iff_nil. lia. }
  subst cs1. destruct (I1 eq_refl) as [[= ->] Ha].
  destruct (coerce_and_clamp_growth "bmi" parseFloat CONFIG.BMI_MIN CONFIG.BMI_MAX
              a a [] Hbmi) as [_ I2].
  rewrite E2 in I2. destruct (I2 eq_refl) as [[= ->] Hb].
  exact (conj Hage (conj Ha (conj Hbmi (conj Hb (conj Hsl Hsm))))).
Qed.

(** X14.  On answers whose age and body-mass index are numbers, null or
    absent (as the parsers produce them) the guard reports valid only when
    it had nothing to do: every change it makes to such answers is recorded
    as a correction, and valid answers come back unchanged. *)
Theorem validateAnswerRanges_valid_unchanged (a : gmap string value) :
  number_or_nullish (get a "age") -> number_or_nullish (get a "bmi") ->
  range_isValid (validateAnswerRanges a) = true ->
  settled a /\ correctedAnswers (validateAnswerRanges a) = a
  /\ corrections (validateAnswerRanges a) = [].
Proof.
  intros Hage Hbmi Hvalid. pose proof (valid_settled a Hage Hbmi Hvalid) as Hs.
  by rewrite (settled_fixed a Hs).
Qed.

(** X15.  An age that is neither a number nor null and whose integer parse
    is NaN or 0 is replaced by null without any correction for the age. *)
Theorem validateAnswerRanges_silent_null (a : gmap string value) :
  is_nullish (get a "age") = false -> is_number (get a "age") = false ->
  num_truthy (parseInt (get a "age")) = false ->
  get (correctedAnswers (validateAnswerRanges a)) "age" = VNull
  /\ forall c, In c (corrections (validateAnswerRanges a)) -> field c <> "age".
Proof.
  intros Hnull Hnum Hparse.
  assert (E1 : coerce_and_clamp "age" parseInt CONFIG.AGE_MIN CONFIG.AGE_MAX a (a, [])
               = (<["age" := VNull]> a, [])).
  { unfold coerce_and_clamp. rewrite Hnull, Hnum. cbn [negb].
    unfold js_or. cbn [truthy]. rewrite Hparse. reflexivity. }
  unfold validateAnswerRanges. cbv zeta. cbn [correctedAnswers corrections]. rewrite E1.
  split.
  - unfold get. rewrite normalize_smoker_other by done.
    rewrite clamp_sleep_other by done. rewrite coerce_and_clamp_other by done.
    cbn [fst]. by rewrite lookup_insert_eq.
  - set (s1 := <["age" := VNull]> a).
    assert (F2 : forall c, In c (coerce_and_clamp "bmi" parseFloat CONFIG.BMI_MIN
                                   CONFIG.BMI_MAX a (s1, [])).2 -> field c = "bmi").
    { unfold coerce_and_clamp, clamp_field.
      repeat match goal with
      | |- context [if ?b then _ else _] => destruct b
      end; simpl; intros c Hc; intuition (subst; done). }
    destruct (coerce_and_clamp "bmi" parseFloat CONFIG.BMI_MIN CONFIG.BMI_MAX a (s1, []))
      as [a2 cs2].
    assert (F3 : forall c, In c (clamp_sleep (a2, cs2)).2 -> field c <> "age").
    { unfold clamp_sleep, clamp_field.
      repeat match goal with
      | |- context [if ?b then _ else _] => destruct b
      end; cbn [fst snd]; intros c Hc; try apply in_app_or in Hc as [Hc|Hc];
        try (apply F2 in Hc; congruence); simpl in Hc; intuition (subst; done). }
    destruct (clamp_sleep (a2, cs2)) as [a3 cs3].
    unfold normalize_smoker.
    destruct (get a3 "smoker"); try exact F3.
    repeat match goal with
    | |- context [if ?b then _ else _] => destruct b
    end; cbn [fst snd]; intros c Hc; try apply in_app_or in Hc as [Hc|Hc];
      try (by apply F3 in Hc); simpl in Hc; intuition (subst; done).
Qed.

End WithEngine.

Lemma validateAnswerRanges_settled_witness :
  settled (<["age" := VNum (of_Z 42)]> (<["smoker" := VStr "sometimes"]> ∅))
  /\ correctedAnswers (validateAnswerRanges (engine := strict_engine)
       (<["age" := VNum (of_Z 42)]> (<["smoker" := VStr "sometimes"]> ∅)))
     = <["age" := VNum (of_Z 42)]> (<["smoker" := VStr "sometimes"]> ∅).
Proof.
  assert (H : settled (<["age" := VNum (of_Z 42)]> (<["smoker" := VStr "sometimes"]> ∅))).
  { unfold settled.
    replace (get (<["age" := VNum (of_Z 42)]> (<["smoker" := VStr "sometimes"]> ∅)) "age")
      with (VNum (of_Z 42)) by reflexivity.
    replace (get (<["age" := VNum (of_Z 42)]> (<["smoker" := VStr "sometimes"]> ∅)) "bmi")
      with VUndef by reflexivity.
    replace (get (<["age" := VNum (of_Z 42)]> (<["smoker" := VStr "sometimes"]> ∅)) "sleep")
      with VUndef by reflexivity.
    replace (get (<["age" := VNum (of_Z 42)]> (<["smoker" := VStr "sometimes"]> ∅)) "smoker")
      with (VStr "sometimes") by reflexivity.
    split; [by right|]. split; [simpl; unfold Qle; simpl; lia|].
    split; [by left|]. split; [exact I|]. split; [exact I|].
    intros s [= <-]. split; reflexivity. }
  split; [exact H|].
  exact (proj1 (proj1 (validateAnswerRanges_settled (engine := strict_engine) _)) H).
Defined.

Lemma validateAnswerRanges_valid_unchanged_witness :
  number_or_nullish (get (<["age" := VNum (of_Z 42)]> ∅ : gmap string value) "age")
  /\ number_or_nullish (get (<["age" := VNum (of_Z 42)]> ∅ : gmap string value) "bmi")
  /\ range_isValid (validateAnswerRanges (engine := strict_engine)
                      (<["age" := VNum (of_Z 42)]> ∅)) = true
  /\ correctedAnswers (validateAnswerRanges (engine := strict_engine)
                         (<["age" := VNum (of_Z 42)]> ∅)) = <["age" := VNum (of_Z 42)]> ∅.
Proof.
  assert (H1 : number_or_nullish
                 (get (<["age" := VNum (of_Z 42)]> ∅ : gmap string value) "age"))
    by (right; reflexivity).
  assert (H2 : number_or_nullish
                 (get (<["age" := VNum (of_Z 42)]> ∅ : gmap string value) "bmi"))
    by (left; reflexivity).
  assert (H3 : range_isValid (validateAnswerRanges (engine := strict_engine)
                                (<["age" := VNum (of_Z 42)]> ∅)) = true)
    by (vm_compute; reflexivity).
  split; [exact H1|]. split; [exact H2|]. split; [exact H3|].
  exact (proj1 (proj2 (validateAnswerRanges_valid_unchanged
                         (engine := strict_engine) _ H1 H2 H3))).
Defined.

Lemma validateAnswerRanges_silent_null_witness :
  is_nullish (get (<["age" := VStr "abc"]> ∅ : gmap string value) "age") = false
  /\ is_number (get (<["age" := VStr "abc"]> ∅ : gmap string value) "age") = false
  /\ get (correctedAnswers (validateAnswerRanges (engine := strict_engine)
                              (<["age" := VStr "abc"]> ∅))) "age" = VNull
  /\ range_isValid (validateAnswerRanges (engine := strict_engine)
                      (<["age" := VStr "abc"]> ∅)) = true.
Proof.
  assert (H1 : is_nullish (get (<["age" := VStr "abc"]> ∅ : gmap string value) "age") = false)
    by reflexivity.
  assert (H2 : is_number (get (<["age" := VStr "abc"]> ∅ : gmap string value) "age") = false)
    by reflexivity.
  assert (H3 : num_truthy (parseInt (engine := strict_engine)
                 (get (<["age" := VStr "abc"]> ∅ : gmap string value) "age")) = false)
    by reflexivity.
  split; [exact H1|]. split; [exact H2|].
  split; [exact (proj1 (validateAnswerRanges_silent_null (engine := strict_engine) _ H1 H2 H3))|].
  vm_compute. reflexivity.
Defined.

End RangeGuardProperties.

(** ** surveyParser.js *)

Module SurveyParserProperties.
Import JS JSFacts SurveyParser Notions ParserNotions SurveyParserFacts.

Lemma well_typed_empty : well_typed ∅.
Proof. intros k v H. by rewrite lookup_empty in H. Qed.

Lemma well_typed_insert (k : string) (v : value) (a : gmap string value) :
  field_ok k v = true -> well_typed a -> well_typed (<[k := v]> a).
Proof.
  intros Hv Ha k' v' H. destruct (decide (k = k')) as [<-|Hne].
  - rewrite lookup_insert_eq in H. by injection H as <-.
  - rewrite lookup_insert_ne in H by done. by apply Ha.
Qed.

Lemma well_typed_if (b : bool) (x y : gmap string value) :
  well_typed x -> well_typed y -> well_typed (if b then x else y).
Proof. by destruct b. Qed.

Lemma well_typed_match {B} (o : option B) (f : B -> gmap string value)
    (y : gmap string value) :
  (forall g, well_typed (f g)) -> well_typed y ->
  well_typed (match o with Some g => f g | None => y end).
Proof. by destruct o. Qed.

Lemma js_or_number_null (n : number) :
  js_or (VNum n) VNull = VNull \/ js_or (VNum n) VNull = VNum n.
Proof. unfold js_or. destruct (truthy (VNum n)); auto. Qed.

Lemma normalizeBoolean_type (v : value) :
  is_null (normalizeBoolean v) || is_boolean (normalizeBoolean v) = true.
Proof.
  destruct v; simpl; try done.
  repeat match goal with |- context [if ?b then _ else _] => destruct b end; done.
Qed.

Section WithEngine.
Context {engine : Engine}.

Lemma normalizeExercise_type (v : value) :
  is_null (normalizeExercise v) || is_string (normalizeExercise v) = true.
Proof.
  unfold normalizeExercise.
  repeat match goal with |- context [if ?b then _ else _] => destruct b end; done.
Qed.

Lemma normalizeDiet_type (v : value) :
  is_null (normalizeDiet v) || is_string (normalizeDiet v) = true.
Proof.
  unfold normalizeDiet.
  repeat match goal with |- context [if ?b then _ else _] => destruct b end; done.
Qed.

Lemma normalizeAlcohol_type (v : value) : is_string (normalizeAlcohol v) = true.
Proof.
  unfold normalizeAlcohol.
  repeat match goal with |- context [if ?b then _ else _] => destruct b end; done.
Qed.

Lemma set_if_defined_typed (raw : input) (k : string) (f : value -> value)
    (a a' : gmap string value) :
  (forall v, is_undefined v = false -> field_ok k (f v) = true) ->
  well_typed a -> set_if_defined raw k f a = Ret a' -> well_typed a'.
Proof.
  intros Hf Ha. unfold set_if_defined.
  destruct (raw_get raw k) as [v|]; simpl; [|done].
  intros [= <-]. destruct (is_undefined v) eqn:Hu; [done|].
  apply well_typed_insert; [by apply Hf|done].
Qed.

Lemma parseJsonInput_typed (inp : input) (a : gmap string value) :
  parseJsonInput inp = Ret a -> well_typed a.
Proof.
  unfold parseJsonInput.
  destruct (match inp with InStr s => JSON_parse s | _ => Ret inp end) as [raw|];
    simpl; [|done].
  pose proof well_typed_empty as H0.
  repeat match goal with
  | |- bind (set_if_defined raw ?k ?f ?acc) _ = _ -> _ =>
      let E := fresh "E" in
      destruct (set_if_defined raw k f acc) as [?a|] eqn:E; simpl; [|done];
      apply set_if_defined_typed in E; [| |assumption]
  end.
  1: by intros [= <-].
  all: intros v Hv; unfold field_ok; simpl;
    first [ apply normalizeBoolean_type | apply normalizeExercise_type
          | apply normalizeDiet_type | apply normalizeAlcohol_type
          | reflexivity
          | (destruct (js_or_number_null (parseInt v)) as [-> | ->]; reflexivity)
          | (destruct (js_or_number_null (parseFloat v)) as [-> | ->]; reflexivity)
          | (unfold js_or; destruct (truthy _); [reflexivity | by rewrite Hv]) ].
Qed.

Lemma field_ok_smoker (v : value) : field_ok "smoker" (normalizeBoolean v) = true.
Proof. apply normalizeBoolean_type. Qed.

Lemma field_ok_exercise (v : value) : field_ok "exercise" (normalizeExercise v) = true.
Proof. apply normalizeExercise_type. Qed.

Lemma field_ok_diet (v w : value) :
  field_ok "diet" (js_or (normalizeDiet v) (normalizeDiet w)) = true.
Proof. unfold js_or. destruct (truthy _); apply normalizeDiet_type. Qed.

Lemma parseOcrLine_typed (a : gmap string value) (line : string) :
  well_typed a -> well_typed (parseOcrLine a line).
Proof.
  intros Ha. unfold parseOcrLine. cbv zeta.
  repeat first
    [ assumption
    | apply well_typed_if
    | apply well_typed_match; [intros ?|]
    | apply well_typed_insert;
      [ first [ reflexivity | apply field_ok_smoker | apply field_ok_exercise
              | apply field_ok_diet ] |] ].
Qed.

Lemma parseOcrText_typed (text : input) (a : gmap string value) :
  parseOcrText text = Ret a -> well_typed a.
Proof.
  destruct text; simpl; try done. intros [= <-].
  generalize (ocr_lines s). intros lines.
  assert (H : well_typed ∅) by apply well_typed_empty. revert H.
  generalize (∅ : gmap string value).
  induction lines as [|l ls IH]; intros acc Hacc; simpl; [done|].
  apply IH. by apply parseOcrLine_typed.
Qed.

Lemma parse_attempt_typed (inp : input) (isOcr : bool) (a : gmap string value) :
  parse_attempt inp isOcr = Ret a -> well_typed a.
Proof.
  unfold parse_attempt. destruct isOcr; [apply parseOcrText_typed|].
  destruct inp; try apply parseJsonInput_typed.
  unfold try_catch. destruct (parseJsonInput (InStr s)) as [a'|] eqn:E.
  - intros [= <-]. by eapply parseJsonInput_typed.
  - apply parseOcrText_typed.
Qed.

(** X16.  Whatever the input, the answers [parseSurvey] returns hold only
    the eight survey keys, never store undefined, and are typed: age and
    bmi a number or null, smoker a boolean or null, exercise and diet a
    string or null, alcohol and stress a string. *)
Theorem parseSurvey_well_typed (inp : input) (isOcr : bool) :
  exists r, parseSurvey inp isOcr = Ret r
    /\ forall k v, answers r !! k = Some v -> field_ok k v = true.
Proof.
  unfold parseSurvey. destruct (parse_attempt inp isOcr) as [a|msg] eqn:E.
  - eexists. split; [reflexivity|]. simpl. by eapply parse_attempt_typed.
  - eexists. split; [reflexivity|]. simpl. apply well_typed_empty.
Qed.



End WithEngine.

Lemma missing_plus_present (a : gmap string value) :
  (length (getMissingFields a)
   + length (List.filter (fun f => is_parsed (get a f)) CORE_FIELDS) = 4)%nat.
Proof.
  unfold getMissingFields.
  apply (filter_length (fun f => is_nullish (get a f)) CORE_FIELDS).
Qed.

(** On at most eight answers the rounding and the clamp of the confidence
    change nothing. *)
Lemma calculateConfidence_formula (a : gmap string value) (isOcr : bool) :
  (size a <= 8)%nat ->
  (calculateConfidence a isOcr ==
   confidence_formula isOcr (length (getMissingFields a)) (count_values is_null a))%Q.
Proof.
  intros Hsize. unfold calculateConfidence, confidence_formula. cbv zeta.
  pose proof (missing_plus_present a) as Hm.
  pose proof (count_values_le_size is_null a) as Hn.
  revert Hm Hn.
  generalize (length (List.filter (fun f => is_parsed (get a f)) CORE_FIELDS)).
  generalize (length (getMissingFields a)).
  generalize (count_values is_null a). intros n m p Hm Hn.
  assert (Hn8 : (n <= 8)%nat) by lia. clear Hn Hsize.
  apply Qeq_bool_iff.
  destruct p as [|[|[|[|[|p]]]]]; try lia;
    destruct m as [|[|[|[|[|m]]]]]; try lia;
    destruct n as [|[|[|[|[|[|[|[|[|n]]]]]]]]]; try lia;
    destruct isOcr; vm_compute; reflexivity.
Qed.

Section WithEngine.
Context {engine : Engine}.

(** X18.  For a result of [parseSurvey] without an error the missing fields
    are the core fields whose answer is absent or null, in the order age,
    smoker, exercise, diet, and the confidence is exactly
    1 - 0.1 (for OCR) - 0.05 for each missing core field - 0.02 for each
    null answer: rounding and clamping never change it. *)
Theorem parseSurvey_confidence_formula (inp : input) (isOcr : bool) :
  exists r, parseSurvey inp isOcr = Ret r
    /\ (error r = None ->
        missing_fields r
          = List.filter (fun f => is_nullish (get (answers r) f))
              ["age"; "smoker"; "exercise"; "diet"]
        /\ (confidence r ==
            confidence_formula isOcr (length (missing_fields r))
              (count_values is_null (answers r)))%Q).
Proof.
  unfold parseSurvey. destruct (parse_attempt inp isOcr) as [a|msg] eqn:E.
  - eexists. split; [reflexivity|]. simpl. intros _. split; [reflexivity|].
    apply calculateConfidence_formula. by eapply keys_in_size, parse_attempt_keys.
  - eexists. split; [reflexivity|]. by simpl.
Qed.

Lemma split_char_nonempty (c : ascii) (s : string) : split_char c s <> [].
Proof.
  induction s as [|a s IH]; simpl; [done|].
  destruct (Ascii.eqb a c); [done|]. by destruct (split_char c s).
Qed.

Lemma split_char_app (c : ascii) (s1 s2 : string) :
  split_char c (s1 ++ String c s2) = (split_char c s1 ++ split_char c s2)%list.
Proof.
  induction s1 as [|a s1 IH]; simpl.
  - by rewrite Ascii.eqb_refl.
  - destruct (Ascii.eqb a c); rewrite IH; [done|].
    pose proof (split_char_nonempty c s1) as Hne.
    by destruct (split_char c s1).
Qed.

Lemma ocr_lines_app (s1 s2 : string) :
  ocr_lines (s1 ++ String "010" s2) = (ocr_lines s1 ++ ocr_lines s2)%list.
Proof.
  unfold ocr_lines. by rewrite split_char_app, List.map_app, List.filter_app.
Qed.

(** X19.  Scanning two texts joined by a line break is scanning the second
    one on top of the answers of the first: a later line overwrites what an
    earlier line stored for the same field and keeps the rest. *)
Theorem parseOcrText_append (s1 s2 : string) :
  exists a1, parseOcrText (InStr s1) = Ret a1
    /\ parseOcrText (InStr (s1 ++ String "010" s2))
       = Ret (fold_left parseOcrLine (ocr_lines s2) a1).
Proof.
  eexists. split; [reflexivity|]. simpl. by rewrite ocr_lines_app, fold_left_app.
Qed.

(** The structured parser reads its object through the eight survey keys
    only. *)
Lemma parseJsonInput_ext (p1 p2 : gmap string value) :
  (forall k, In k EXPECTED_FIELDS -> p1 !! k = p2 !! k) ->
  parseJsonInput (InObject p1) = parseJsonInput (InObject p2).
Proof.
  intros H. unfold parseJsonInput, set_if_defined, raw_get. cbn [bind]. unfold get.
  rewrite !(H "age"), !(H "smoker"), !(H "exercise"), !(H "diet"), !(H "alcohol"),
    !(H "sleep"), !(H "stress"), !(H "bmi") by (simpl; tauto).
  reflexivity.
Qed.

(** X20.  Keys outside the eight survey fields are ignored: dropping them
    from a structured input changes nothing in the parse result. *)
Theorem parseSurvey_ignores_extra_keys (props : gmap string value) :
  parseSurvey (InObject (filter (fun kv => kv.1 ∈ expected_keys) props)) false
  = parseSurvey (InObject props) false.
Proof.
  unfold parseSurvey, parse_attempt.
  rewrite (parseJsonInput_ext (filter (fun kv => kv.1 ∈ expected_keys) props) props);
    [done|].
  intros k Hk. apply expected_key in Hk.
  destruct (props !! k) as [v|] eqn:E.
  - by apply map_lookup_filter_Some.
  - apply map_lookup_filter_None. left. done.
Qed.

End WithEngine.
End SurveyParserProperties.

(** ** guardrails.js and pipeline.js: the gates and the orchestrator *)

Module PipelineProperties.
Import JS JSFacts SurveyParser Guardrails FactorExtractor RiskClassifier RecommendationEngine
  SchemaValidator Pipeline Server Notions MoreNotions ParserNotions PipelineNotions.
Import SurveyParserFacts PipelineFacts SurveyParserProperties RangeGuardProperties.

Lemma getMissingFields_le (a : gmap string value) : (length (getMissingFields a) <= 4)%nat.
Proof. apply (filter_length_le _ CORE_FIELDS). Qed.

Section WithEngine.
Context {engine : Engine}.

(** The completeness guard on an error-free result of the parsers. *)
Lemma completeness_gate (a : gmap string value) (isOcr : bool) :
  keys_in a ->
  let r := {| answers := a; missing_fields := getMissingFields a;
              confidence := calculateConfidence a isOcr; error := None |} in
  (isValid (checkProfileCompleteness r) = true <-> (length (getMissingFields a) <= 2)%nat)
  /\ (isValid (checkProfileCompleteness r) = false ->
      status (checkProfileCompleteness r) = Some "incomplete_profile"
      /\ check_missing_fields (checkProfileCompleteness r) = Some (getMissingFields a)).
Proof.
  intros Hkeys. cbv zeta. apply keys_in_size in Hkeys.
  pose proof (calculateConfidence_floor a isOcr Hkeys) as Hconf.
  unfold checkProfileCompleteness, has_error. cbn [error confidence missing_fields answers].
  destruct (Qlt_bool (calculateConfidence a isOcr) CONFIG.MIN_CONFIDENCE) eqn:Hlow.
  { apply Qlt_bool_true in Hlow. unfold CONFIG.MIN_CONFIDENCE in Hlow. lra. }
  pose proof (getMissingFields_le a) as Hle.
  destruct (Qlt_bool CONFIG.MAX_MISSING_PERCENTAGE _) eqn:Hmiss.
  - cbn [isValid status check_missing_fields]. split; [|done]. split; [done|].
    intros Hm. exfalso. revert Hmiss.
    destruct (length (getMissingFields a)) as [|[|[|m]]]; try lia; by vm_compute.
  - destruct (count_values is_parsed a =? 0)%nat eqn:Hnone.
    + exfalso. apply Nat.eqb_eq in Hnone.
      assert (Hall : getMissingFields a = CORE_FIELDS).
      { unfold getMissingFields, CORE_FIELDS. simpl.
        by rewrite !(nothing_parsed a _ Hnone). }
      rewrite Hall in Hmiss. vm_compute in Hmiss. discriminate Hmiss.
    + cbn [isValid]. split; [|done]. split; [|done]. intros _. revert Hmiss.
      destruct (length (getMissingFields a)) as [|[|[|[|[|m]]]]]; try lia; by vm_compute.
Qed.

(** X21.  For a result of [parseSurvey] without an error the completeness
    guard passes exactly when at most two of the four core fields are
    missing; when it fails, it fails with incomplete_profile and reports the
    missing fields. *)
Theorem completeness_iff_two_missing (inp : input) (isOcr : bool) :
  exists r, parseSurvey inp isOcr = Ret r
    /\ (error r = None ->
        (isValid (checkProfileCompleteness r) = true
         <-> (length (missing_fields r) <= 2)%nat)
        /\ (isValid (checkProfileCompleteness r) = false ->
            status (checkProfileCompleteness r) = Some "incomplete_profile"
            /\ check_missing_fields (checkProfileCompleteness r)
               = Some (missing_fields r))).
Proof.
  unfold parseSurvey. destruct (parse_attempt inp isOcr) as [a|msg] eqn:E.
  - eexists. split; [reflexivity|]. intros _.
    apply (completeness_gate a isOcr). by eapply parse_attempt_keys.
  - eexists. split; [reflexivity|]. by simpl.
Qed.

(** The answers of a parse result carry a number, null or nothing under
    age and bmi. *)
Lemma parsed_number_or_nullish (inp : input) (isOcr : bool) (r : ParseResult) :
  parseSurvey inp isOcr = Ret r ->
  keys_in (answers r)
  /\ number_or_nullish (get (answers r) "age")
  /\ number_or_nullish (get (answers r) "bmi").
Proof.
  assert (H : forall a, well_typed a ->
            number_or_nullish (get a "age") /\ number_or_nullish (get a "bmi")).
  { intros a Ha. unfold get. split.
    - destruct (a !! "age") as [v|] eqn:E; [|by left].
      apply Ha in E. unfold field_ok in E. simpl in E.
      apply orb_true_iff in E as [E|E]; [left|right]; by destruct v.
    - destruct (a !! "bmi") as [v|] eqn:E; [|by left].
      apply Ha in E. unfold field_ok in E. simpl in E.
      apply orb_true_iff in E as [E|E]; [left|right]; by destruct v. }
  unfold parseSurvey. destruct (parse_attempt inp isOcr) as [a|msg] eqn:E.
  - intros [= <-]. cbn [answers]. split; [by eapply parse_attempt_keys|].
    apply H. by eapply parse_attempt_typed.
  - intros [= <-]. cbn [answers]. split; [|apply H, well_typed_empty].
    unfold keys_in. rewrite dom_empty_L. apply empty_subseteq.
Qed.

(** On such answers the branch on the verdict of the range guard makes no
    difference: the corrected answers and the corrections are those of the
    guard either way. *)
Lemma range_choice (a : gmap string value) :
  number_or_nullish (get a "age") -> number_or_nullish (get a "bmi") ->
  (if negb (range_isValid (validateAnswerRanges a))
   then (correctedAnswers (validateAnswerRanges a), corrections (validateAnswerRanges a))
   else (a, [])) =
  (correctedAnswers (validateAnswerRanges a), corrections (validateAnswerRanges a)).
Proof.
  intros Hage Hbmi. destruct (range_isValid (validateAnswerRanges a)) eqn:Hv; [|done].
  cbn [negb]. by rewrite (settled_fixed a (valid_settled a Hage Hbmi Hv)).
Qed.

(** The run of the pipeline on an input the input guard accepts. *)
Lemma runAnalysisPipeline_valid (inp : input) (options : Options) (r : ParseResult) :
  isValid (validateInput inp) = true -> parseSurvey inp (isOcr options) = Ret r ->
  runAnalysisPipeline inp options = analyse_parsed r [step_success "input_validation"].
Proof.
  intros Hv Hr. unfold runAnalysisPipeline. cbv zeta. rewrite Hv. cbn [negb].
  by rewrite Hr.
Qed.

(** The stages after a parse result that passes the completeness guard. *)
Lemma analyse_parsed_complete (r : ParseResult) (trace : list StepResult) :
  number_or_nullish (get (answers r) "age") -> number_or_nullish (get (answers r) "bmi") ->
  isValid (checkProfileCompleteness r) = true ->
  analyse_parsed r trace =
    let rangeValidation := validateAnswerRanges (answers r) in
    let ans := correctedAnswers rangeValidation in
    let factorResult := extractFactors ans in
    let riskResult := classifyRisk (factors factorResult) ans in
    let recResult := generateRecommendations (factors factorResult) (risk_level riskResult) in
    let trace := (trace ++ [step_success "parse"; step_success "factors";
                            step_success "risk"; step_success "recommendations"])%list in
    {| pipeline_success := true;
       steps := trace;
       data := Some
         {| data_answers := ans;
            data_missing_fields := missing_fields r;
            parse_confidence := confidence r;
            data_corrections := corrections rangeValidation;
            data_factors := factors factorResult;
            data_factor_confidence := factor_confidence factorResult;
            data_factor_details := Some (factor_details factorResult);
            data_risk_level := risk_level riskResult;
            data_score := score riskResult;
            data_rationale := rationale riskResult;
            data_recommendations := recommendations recResult;
            data_detailed_recommendations := detailed_recommendations recResult;
            data_warnings := warnings (checkProfileCompleteness r);
            pipeline_steps := Some (length trace) |};
       pipeline_error := None |}.
Proof.
  intros Hage Hbmi Hc. unfold analyse_parsed. cbv zeta. rewrite Hc. cbn [negb].
  rewrite (range_choice (answers r) Hage Hbmi). by rewrite <- !app_assoc.
Qed.

(** X22.  The trace of the pipeline.  A successful run has the five steps
    input_validation, parse, factors, risk and recommendations, all
    successful, a payload that counts five steps, and no error.  A failed
    run has no payload and an error, and its trace ends at the step that
    failed, input_validation or parse, which carries the reason of the
    error. *)
Theorem runAnalysisPipeline_trace (inp : input) (options : Options) :
  let r := runAnalysisPipeline inp options in
  (pipeline_success r = true
   /\ steps r = List.map step_success step_names
   /\ pipeline_error r = None
   /\ exists d, data r = Some d /\ pipeline_steps d = Some 5%nat)
  \/ (pipeline_success r = false
      /\ data r = None
      /\ exists e, pipeline_error r = Some e
           /\ (steps r = [step_failure "input_validation" (err_reason e)]
               \/ steps r = [step_success "input_validation";
                             step_failure "parse" (err_reason e)])).
Proof.
  cbv zeta. destruct (isValid (validateInput inp)) eqn:Hv.
  - destruct (parseSurvey_total inp (isOcr options)) as [r Hr].
    rewrite (runAnalysisPipeline_valid inp options r Hv Hr).
    destruct (parsed_number_or_nullish inp (isOcr options) r Hr) as (_ & Hage & Hbmi).
    destruct (isValid (checkProfileCompleteness r)) eqn:Hc.
    + left. rewrite (analyse_parsed_complete r _ Hage Hbmi Hc). cbv zeta.
      cbn [pipeline_success steps data pipeline_error].
      split; [done|]. split; [done|]. split; [done|]. eexists. split; reflexivity.
    + right. unfold analyse_parsed. cbv zeta. rewrite Hc.
      cbn [negb pipeline_success steps data pipeline_error].
      split; [done|]. split; [done|]. eexists. split; [reflexivity|]. by right.
  - right. unfold runAnalysisPipeline. cbv zeta. rewrite Hv.
    cbn [negb pipeline_success steps data pipeline_error].
    split; [done|]. split; [done|]. eexists. split; [reflexivity|]. by left.
Qed.

(** X23.  The payload of a successful run: its answers hold survey keys
    only and are a fixed point of the range guard (age, body-mass index and
    sleep within their bounds), at most two core fields were missing, the
    parse confidence is at least 0.54, and the score lies in [0, 100]. *)
Theorem pipeline_payload (inp : input) (options : Options) (d : AnalysisData) :
  data (runAnalysisPipeline inp options) = Some d ->
  keys_in (data_answers d)
  /\ settled (data_answers d)
  /\ (length (data_missing_fields d) <= 2)%nat
  /\ (0.54 <= parse_confidence d)%Q
  /\ (0 <= data_score d <= 100)%Z.
Proof.
  destruct (isValid (validateInput inp)) eqn:Hv.
  2: { unfold runAnalysisPipeline. cbv zeta. rewrite Hv. cbn [negb data]. discriminate. }
  destruct (parseSurvey_total inp (isOcr options)) as [r Hr].
  rewrite (runAnalysisPipeline_valid inp options r Hv Hr).
  destruct (parsed_number_or_nullish inp (isOcr options) r Hr) as (Hkeys & Hage & Hbmi).
  destruct (isValid (checkProfileCompleteness r)) eqn:Hc.
  2: { unfold analyse_parsed. cbv zeta. rewrite Hc. cbn [negb data]. discriminate. }
  rewrite (analyse_parsed_complete r _ Hage Hbmi Hc). cbv zeta. cbn [data].
  assert (Hinj : forall x y : AnalysisData, Some x = Some y -> x = y)
    by (intros x y [= ->]; reflexivity).
  intros Hd. apply Hinj in Hd. subst d. clear Hinj.
  cbn [data_answers data_missing_fields parse_confidence data_score].
  destruct (validateAnswerRanges_parts (answers r)) as [Hdom Hset].
  split; [unfold keys_in; rewrite Hdom; exact Hkeys|]. split; [exact Hset|].
  split; [|split; [|apply RiskClassifierProperties.score_range]].
  - clear Hdom Hset Hage Hbmi Hkeys. revert Hr Hc. unfold parseSurvey.
    destruct (parse_attempt inp (isOcr options)) as [a|msg] eqn:E; intros [= <-] Hc.
    + cbn [missing_fields].
      assert (Hk : keys_in a) by (eapply parse_attempt_keys; exact E).
      destruct (completeness_gate a (isOcr options) Hk) as [[Hfw _] _].
      apply Hfw. exact Hc.
    + exfalso. unfold checkProfileCompleteness, has_error in Hc.
      cbn [error is_empty negb append] in Hc. discriminate Hc.
  - clear Hdom Hset Hage Hbmi Hkeys. revert Hr Hc. unfold parseSurvey.
    destruct (parse_attempt inp (isOcr options)) as [a|msg] eqn:E; intros [= <-] Hc.
    + cbn [confidence]. apply calculateConfidence_floor, keys_in_size.
      eapply parse_attempt_keys; exact E.
    + exfalso. unfold checkProfileCompleteness, has_error in Hc.
      cbn [error is_empty negb append] in Hc. discriminate Hc.
Qed.



End WithEngine.

Lemma pipeline_payload_witness :
  exists d, data (runAnalysisPipeline (engine := strict_engine) (InObject scenario_B)
                    (default_options false)) = Some d
    /\ (0 <= data_score d <= 100)%Z.
Proof.
  eexists. split; [vm_compute; reflexivity|].
  eapply (pipeline_payload (engine := strict_engine) (InObject scenario_B)
            (default_options false)).
  vm_compute. reflexivity.
Defined.


End PipelineProperties.

(** ** schemaValidator.js *)

Module SchemaProperties.
Import JS JSFacts SurveyParser FactorExtractor RiskClassifier SchemaValidation SchemaNotions.

Lemma clamp01_bounds (q : Q) : (0 <= clamp01 q <= 1)%Q.
Proof.
  unfold clamp01. split; [apply Q.le_max_l|].
  apply Q.max_lub; [done|apply Q.le_min_l].
Qed.

Lemma obj_get_set (o : object) (k k' : string) (v : json) :
  obj_get (obj_set o k v) k' = if String.eqb k k' then v else obj_get o k'.
Proof.
  induction o as [|[k0 v0] o IH]; simpl.
  - done.
  - destruct (String.eqb_spec k0 k) as [->|Hne]; simpl.
    + by destruct (String.eqb k k').
    + rewrite IH. destruct (String.eqb_spec k0 k') as [->|Hne'].
      * destruct (String.eqb_spec k k'); congruence.
      * done.
Qed.

Lemma is_undefined_defined (o : object) (k : string) :
  is_undef (obj_get o k) = false <-> defined o k.
Proof. unfold defined. destruct (obj_get o k); simpl; split; congruence. Qed.

Lemma default_of_defined (propSchema : PropSchema) : default_of propSchema <> JUndef.
Proof.
  unfold default_of. destruct (type propSchema) as [t|]; [|done].
  repeat match goal with |- context [if ?b then _ else _] => destruct b end; done.
Qed.

(** One turn of the loop of [ensureSchemaCompliance]. *)
Lemma ensure_turn_keeps (schema : Schema) (r : object) (f k : string) :
  defined r k ->
  obj_get (if is_undef (obj_get r f) then
             match property_named schema f with
             | Some propSchema => obj_set r f (default_of propSchema)
             | None => r
             end
           else r) k = obj_get r k.
Proof.
  intros Hk. destruct (is_undef (obj_get r f)) eqn:Hf; [|done].
  destruct (property_named schema f) as [ps|]; [|done].
  rewrite obj_get_set. destruct (String.eqb_spec f k) as [->|]; [|done].
  apply is_undefined_defined in Hk. congruence.
Qed.

Lemma ensure_turn_fills (schema : Schema) (r : object) (f : string) :
  property_named schema f <> None ->
  defined (if is_undef (obj_get r f) then
             match property_named schema f with
             | Some propSchema => obj_set r f (default_of propSchema)
             | None => r
             end
           else r) f.
Proof.
  intros Hp. destruct (is_undef (obj_get r f)) eqn:Hf.
  - destruct (property_named schema f) as [ps|]; [|done].
    unfold defined. rewrite obj_get_set, String.eqb_refl. apply default_of_defined.
  - by apply is_undefined_defined.
Qed.

Lemma ensure_loop_keeps (schema : Schema) (fields : list string) (r : object) (k : string) :
  defined r k ->
  obj_get (fold_left (fun result field =>
             if is_undef (obj_get result field) then
               match property_named schema field with
               | Some propSchema => obj_set result field (default_of propSchema)
               | None => result
               end
             else result) fields r) k = obj_get r k.
Proof.
  revert r. induction fields as [|f fields IH]; intros r Hk; [done|].
  cbn [fold_left]. rewrite IH.
  - by apply ensure_turn_keeps.
  - unfold defined. by rewrite ensure_turn_keeps.
Qed.

Lemma ensure_loop_fills (schema : Schema) (fields : list string) (r : object) (f : string) :
  (forall f, In f fields -> property_named schema f <> None) ->
  In f fields ->
  defined (fold_left (fun result field =>
             if is_undef (obj_get result field) then
               match property_named schema field with
               | Some propSchema => obj_set result field (default_of propSchema)
               | None => result
               end
             else result) fields r) f.
Proof.
  revert r. induction fields as [|f0 fields IH]; intros r Hp Hin; [done|].
  cbn [fold_left]. destruct (in_dec String.string_dec f fields) as [Hf|Hf].
  - apply IH; [|done]. intros f' Hf'. apply Hp. by right.
  - destruct Hin as [->|Hin]; [|done].
    unfold defined. rewrite ensure_loop_keeps; apply ensure_turn_fills, Hp; by left.
Qed.

Lemma ensure_loop_settled (schema : Schema) (fields : list string) (r : object) :
  (forall f, In f fields -> defined r f) ->
  fold_left (fun result field =>
    if is_undef (obj_get result field) then
      match property_named schema field with
      | Some propSchema => obj_set result field (default_of propSchema)
      | None => result
      end
    else result) fields r = r.
Proof.
  induction fields as [|f fields IH]; intros H; [done|].
  cbn [fold_left].
  assert (Hf : is_undef (obj_get r f) = false)
    by (apply is_undefined_defined, H; by left).
  rewrite Hf. apply IH. intros f' Hf'. apply H. by right.
Qed.

(** In the table every required field has a property schema. *)
Lemma SCHEMAS_required (name : string) (schema : Schema) (fields : list string) (f : string) :
  schema_named SCHEMAS name = Some schema -> required schema = Some fields ->
  In f fields -> property_named schema f <> None.
Proof.
  unfold SCHEMAS. cbn [schema_named].
  repeat match goal with
  | |- context [if String.eqb ?n name then _ else _] =>
      destruct (String.eqb n name);
      [intros [= <-] [= <-] Hin; simpl in Hin;
       repeat (destruct Hin as [<-|Hin]; [by vm_compute|]); destruct Hin|]
  end.
  done.
Qed.

(** X26.  For a schema of the table, [ensureSchemaCompliance] leaves every
    required field defined, and it changes no field that was defined. *)
Theorem ensureSchemaCompliance_fills (data : object) (name : string) (schema : Schema)
    (fields : list string) :
  schema_named SCHEMAS name = Some schema -> required schema = Some fields ->
  (forall f, In f fields -> defined (ensureSchemaCompliance data name) f)
  /\ (forall k, defined data k ->
        obj_get (ensureSchemaCompliance data name) k = obj_get data k).
Proof.
  intros Hs Hr. unfold ensureSchemaCompliance. rewrite Hs. cbv zeta. rewrite Hr. split.
  - intros f Hf. apply ensure_loop_fills; [|done].
    intros f' Hf'. by eapply SCHEMAS_required.
  - intros k Hk. by apply ensure_loop_keeps.
Qed.

Lemma ensureSchemaCompliance_fills_witness :
  schema_named SCHEMAS "analysisResponse" = Some analysisResponse
  /\ required analysisResponse
     = Some ["status"; "risk_level"; "score"; "factors"; "recommendations"]
  /\ defined (ensureSchemaCompliance [("status", JStr "ok")] "analysisResponse") "score".
Proof.
  split; [reflexivity|]. split; [reflexivity|].
  apply (proj1 (ensureSchemaCompliance_fills [("status", JStr "ok")] "analysisResponse"
                  analysisResponse _ eq_refl eq_refl)).
  simpl. tauto.
Defined.

(** X27.  [ensureSchemaCompliance] is idempotent, whatever the schema name. *)
Theorem ensureSchemaCompliance_idempotent (data : object) (name : string) :
  ensureSchemaCompliance (ensureSchemaCompliance data name) name
  = ensureSchemaCompliance data name.
Proof.
  unfold ensureSchemaCompliance.
  destruct (schema_named SCHEMAS name) as [schema|] eqn:Hs; [|done]. cbv zeta.
  destruct (required schema) as [fields|] eqn:Hr; [|done].
  apply ensure_loop_settled. intros f Hf. apply ensure_loop_fills; [|done].
  intros f' Hf'. by eapply SCHEMAS_required.
Qed.

Lemma ensureSchemaCompliance_keeps (data : object) (name k : string) :
  defined data k -> obj_get (ensureSchemaCompliance data name) k = obj_get data k.
Proof.
  intros Hk. unfold ensureSchemaCompliance.
  destruct (schema_named SCHEMAS name) as [schema|]; [|done]. cbv zeta.
  destruct (required schema) as [fields|]; [|done]. by apply ensure_loop_keeps.
Qed.

Lemma defined_key (o : object) (k : string) : defined o k -> In k (List.map fst o).
Proof.
  unfold defined. induction o as [|[k0 v0] o IH]; simpl; [done|].
  destruct (String.eqb_spec k0 k); auto.
Qed.

Lemma spread_other (base extra : object) (k : string) :
  ~ In k (List.map fst extra) -> obj_get (spread base extra) k = obj_get base k.
Proof.
  unfold spread. revert base. induction extra as [|[k0 v0] extra IH]; intros base Hk; [done|].
  cbn [fold_left fst snd]. rewrite IH by (simpl in Hk; tauto).
  rewrite obj_get_set. destruct (String.eqb_spec k0 k) as [->|]; [|done].
  simpl in Hk. tauto.
Qed.

Lemma spread_own (base extra : object) (k : string) :
  NoDup (List.map fst extra) -> In k (List.map fst extra) ->
  obj_get (spread base extra) k = obj_get extra k.
Proof.
  revert base. induction extra as [|[k0 v0] extra IH]; intros base Hnd Hk; [done|].
  cbn [List.map fst] in Hnd, Hk. apply NoDup_cons in Hnd as [Hk0 Hnd].
  change (spread base ((k0, v0) :: extra)) with (spread (obj_set base k0 v0) extra).
  cbn [obj_get]. destruct (String.eqb_spec k0 k) as [->|Hne].
  - rewrite spread_other by (by rewrite <- list_elem_of_In).
    by rewrite obj_get_set, String.eqb_refl.
  - apply IH; [done|]. destruct Hk; [done|done].
Qed.

(** X28.  [createSuccessResponse] keeps every defined field of the data;
    the status is ok and the time stamp the given one unless the data
    bring a field of that name. *)
Theorem createSuccessResponse_fields (now : string) (data : object) (name : option string) :
  NoDup (List.map fst data) ->
  (forall k, defined data k -> obj_get (createSuccessResponse now data name) k = obj_get data k)
  /\ (~ In "status" (List.map fst data) ->
      obj_get (createSuccessResponse now data name) "status" = JStr "ok")
  /\ (~ In "timestamp" (List.map fst data) ->
      obj_get (createSuccessResponse now data name) "timestamp" = JStr now).
Proof.
  intros Hnd.
  assert (Hwrap : forall k v,
    obj_get (spread [("status", JStr "ok"); ("timestamp", JStr now)] data) k = v ->
    v <> JUndef -> obj_get (createSuccessResponse now data name) k = v).
  { intros k v Hv Hd. unfold createSuccessResponse. cbv zeta.
    destruct name as [n|]; [|done]. destruct (is_empty n); [done|].
    rewrite ensureSchemaCompliance_keeps; [done|]. unfold defined. by rewrite Hv. }
  split; [|split].
  - intros k Hk. apply Hwrap; [|done].
    apply spread_own; [done|]. by apply defined_key.
  - intros Hs. apply Hwrap; [|done]. by rewrite spread_other.
  - intros Hs. apply Hwrap; [|done]. by rewrite spread_other.
Qed.

Lemma createSuccessResponse_fields_witness :
  NoDup (List.map fst [("score", JNum (of_Z 7))])
  /\ obj_get (createSuccessResponse "now" [("score", JNum (of_Z 7))]
                (Some "analysisResponse")) "status" = JStr "ok".
Proof.
  assert (H : NoDup (List.map fst [("score", JNum (of_Z 7))])).
  { simpl. apply NoDup_singleton. }
  split; [exact H|].
  apply (proj1 (proj2 (createSuccessResponse_fields "now" [("score", JNum (of_Z 7))]
                         (Some "analysisResponse") H))).
  simpl. intros [E|[]]. discriminate E.
Defined.

Section WithEngine.
Context {engine : Engine}.

(** An array of strings passes the items check. *)
Lemma strings_pass (l : list string) (name : nat -> string) (k : nat) :
  concat (imap (fun index item => validateProperty item (typed "string") (name (k + index)%nat))
            (List.map JStr l)) = [].
Proof.
  revert k. induction l as [|s l IH]; intros k; [done|].
  cbn [List.map imap concat]. specialize (IH (S k)).
  replace (validateProperty (JStr s) (typed "string") (name (k + 0)%nat)) with (@nil string)
    by reflexivity.
  rewrite app_nil_l, <- IH. f_equal. apply imap_ext. intros i x _.
  unfold compose. by rewrite Nat.add_succ_r.
Qed.

Lemma array_of_strings_passes (l : list string) (name : string) :
  validateProperty (json_of_strings l) (array_of (typed "string")) name = [].
Proof.
  unfold json_of_strings. simpl.
  exact (strings_pass l
    (fun i => name ++ "[" ++ Guardrails.string_of_Z (Z.of_nat i) ++ "]") 0).
Qed.

Lemma ranged_passes (lo hi : Z) (q : Q) (name : string) :
  (inject_Z lo <= q <= inject_Z hi)%Q ->
  validateProperty (JNum (Fin q)) (ranged lo hi) name = [].
Proof.
  intros [Hlo Hhi]. simpl.
  apply Qlt_bool_false in Hlo, Hhi. rewrite Hlo. unfold num_gt. simpl.
  by rewrite Hhi.
Qed.

Lemma required_loop (data : object) (fields init : list string) :
  fold_left (fun errors field =>
    if is_undef (obj_get data field)
    then push errors ("Missing required field: " ++ field)
    else errors) fields init
  = (init ++ List.map (fun field => ("Missing required field: " ++ field)%string)
              (List.filter (fun field => is_undef (obj_get data field)) fields))%list.
Proof.
  revert init. induction fields as [|f fields IH]; intros init; simpl.
  - by rewrite app_nil_r.
  - rewrite IH. destruct (is_undef (obj_get data f)); [|done].
    unfold push. by rewrite <- app_assoc.
Qed.

Lemma property_loop (data : object) (props : list (string * PropSchema))
    (init : list string) :
  fold_left (fun errors p =>
    let propErrors := validateProperty (obj_get data p.1) p.2 p.1 in
    (errors ++ propErrors)%list) props init
  = (init ++ concat (List.map (fun p => validateProperty (obj_get data p.1) p.2 p.1)
                       props))%list.
Proof.
  revert init. induction props as [|p props IH]; intros init; simpl.
  - by rewrite app_nil_r.
  - rewrite IH. by rewrite <- app_assoc.
Qed.

(** What an empty error list of [validateProperty] says about a value that
    is neither undefined nor null. *)
Lemma validateProperty_nil (v : json) (propSchema : PropSchema) (name : string) :
  validateProperty v propSchema name = [] ->
  v = JUndef \/ v = JNull
  \/ ((forall t, type propSchema = Some t -> is_empty t = false -> actual_type v = t)
      /\ (forall values, enum propSchema = Some values ->
            exists s, v = JStr s /\ In s values)
      /\ (forall lo, type propSchema = Some "number" -> min propSchema = Some lo ->
            below v lo = false)
      /\ (forall hi, type propSchema = Some "number" -> max propSchema = Some hi ->
            above v hi = false)).
Proof.
  destruct propSchema as [ty en mn mx it].
  destruct v as [| |b|n|s|elems|props]; auto; intros H; right; right.
  all: cbn [validateProperty type enum min max items actual_type] in H.
  all: cbn [type enum min max items actual_type].
  all: unfold is_type in H; cbn [type] in H.
  all: repeat match type of H with
       | context [match ?x with _ => _ end] =>
           lazymatch x with
           | context [match _ with _ => _ end] => fail
           | _ => destruct x eqn:?
           end
       end.
  all: unfold push in H; try discriminate H.
  all: try (apply app_eq_nil in H as [_ H]; discriminate H).
  all: repeat split.
  all: try (intros ? [= <-] Hemp; rewrite Hemp in *; simpl in *;
            symmetry; by apply String.eqb_eq).
  all: try (intros; discriminate).
  all: try (intros ? [= <-]; simpl in *; discriminate).
  all: try (intros ? [= <-]; eexists; split; [reflexivity|];
            apply GuardrailsFacts.array_includes_In; simpl in *; by apply negb_false_iff).
  all: try (intros ? _ [= <-]; assumption).
  all: try (intros ? [= ->]; simpl in *; discriminate).
Qed.

Lemma validateProperty_conforms (v : json) (propSchema : PropSchema) (name : string) :
  validateProperty v propSchema name = [] -> conforms v propSchema.
Proof.
  intros H. apply validateProperty_nil in H as [H|[H|(H1 & H2 & H3 & H4)]];
    [by left|by right; left|].
  right; right. split; [done|]. split; [done|]. split.
  - intros lo q Ht Hlo ->. specialize (H3 lo Ht Hlo). simpl in H3.
    by apply Qlt_bool_false in H3.
  - intros hi q Ht Hhi ->. specialize (H4 hi Ht Hhi). unfold above, num_gt in H4.
    simpl in H4. by apply Qlt_bool_false in H4.
Qed.

(** X29.  A schema validation that reports valid is right: every required
    field is defined, and every property of the schema agrees with its
    value (type, enumeration, bounds) unless the value is undefined or
    null. *)
Theorem validateSchema_sound (data : object) (schema : Schema) :
  isValid (validateSchema data schema) = true ->
  (forall fields f, required schema = Some fields -> In f fields -> defined data f)
  /\ (forall props p propSchema, properties schema = Some props ->
        In (p, propSchema) props -> conforms (obj_get data p) propSchema).
Proof.
  unfold validateSchema. cbv zeta. cbn [isValid]. intros H. apply Nat.eqb_eq in H.
  apply length_zero_iff_nil in H. split.
  - intros fields f Hr Hf. rewrite Hr in H.
    assert (Hreq : fold_left (fun errors field =>
              if is_undef (obj_get data field)
              then push errors ("Missing required field: " ++ field)
              else errors) fields [] = []).
    { destruct (properties schema) as [props|]; [|done].
      rewrite property_loop in H. by apply app_eq_nil in H as [H _]. }
    rewrite required_loop in Hreq. cbn [app] in Hreq.
    apply map_eq_nil in Hreq. apply is_undefined_defined.
    destruct (is_undef (obj_get data f)) eqn:E; [|done].
    assert (Hin : In f (List.filter (fun field => is_undef (obj_get data field)) fields))
      by (apply filter_In; by split).
    rewrite Hreq in Hin. destruct Hin.
  - intros props p ps Hp Hin. rewrite Hp in H. rewrite property_loop in H.
    apply app_eq_nil in H as [_ H].
    apply (validateProperty_conforms _ _ p).
    assert (Hall : Forall (fun l => l = [])
              (List.map (fun p => validateProperty (obj_get data p.1) p.2 p.1) props)).
    { clear -H. induction (List.map _ props) as [|l ls IH]; [done|].
      simpl in H. apply app_eq_nil in H as [-> H]. constructor; auto. }
    rewrite Forall_forall in Hall. apply Hall.
    apply list_elem_of_In, in_map_iff. by exists (p, ps).
Qed.


(** Every result of [classifyRisk] conforms to the risk schema. *)
Lemma risk_result_conforms (fs : list string) (ans : gmap string value) :
  validateSchema (risk_object (classifyRisk fs ans)) riskResponse = passes.
Proof.
  set (r := classifyRisk fs ans).
  assert (Hscore : (0 <= score r <= 100)%Z)
    by apply RiskClassifierProperties.score_range.
  assert (Hlevel : In (risk_level r) ["low"; "moderate"; "high"; "very high"]).
  { unfold r, classifyRisk. cbn [risk_level]. unfold getRiskLevel.
    repeat match goal with |- context [if ?b then _ else _] => destruct b end;
      simpl; tauto. }
  unfold validateSchema, risk_object, riskResponse.
  cbn [required properties fold_left obj_get String.eqb Ascii.eqb Bool.eqb fst snd
       is_undef app].
  rewrite (array_of_strings_passes (rationale r) "rationale").
  assert (Hs : validateProperty (JNum (of_Z (score r))) (ranged 0 100) "score" = []).
  { apply ranged_passes. rewrite <- !Zle_Qle. lia. }
  rewrite Hs.
  assert (Hl : validateProperty (JStr (risk_level r))
                 (one_of ["low"; "moderate"; "high"; "very high"]) "risk_level" = []).
  { revert Hlevel. generalize (risk_level r). intros l Hl.
    simpl in Hl. destruct Hl as [<-|[<-|[<-|[<-|[]]]]]; reflexivity. }
  rewrite Hl. reflexivity.
Qed.

(** Every result of [extractFactors] conforms to the factor schema. *)
Lemma factor_result_conforms (ans : gmap string value) :
  validateSchema (factor_object (extractFactors ans)) factorResponse = passes.
Proof.
  set (r := extractFactors ans).
  assert (Hc : validateProperty (JNum (Fin (factor_confidence r))) (ranged 0 1) "confidence"
               = []).
  { apply ranged_passes. unfold r, extractFactors. cbn [factor_confidence].
    unfold calculateFactorConfidence. cbv zeta. apply clamp01_bounds. }
  unfold validateSchema, factor_object, factorResponse.
  cbn [required properties fold_left obj_get String.eqb Ascii.eqb Bool.eqb fst snd
       is_undef app].
  rewrite (array_of_strings_passes (factors r) "factors"), Hc. reflexivity.
Qed.

(** Every result of [parseSurvey], the one after a failed parse included,
    conforms to the parse schema. *)
Lemma parse_result_conforms (inp : input) (isOcr : bool) :
  exists r, parseSurvey inp isOcr = Ret r
    /\ validateSchema (parse_object r) parseResponse = passes.
Proof.
  assert (H : forall r, (0 <= confidence r <= 1)%Q ->
            validateSchema (parse_object r) parseResponse = passes).
  { intros r Hr.
    pose proof (ranged_passes 0 1 (confidence r) "confidence" Hr) as Hc.
    unfold validateSchema, parse_object, parseResponse.
    cbn [required properties fold_left obj_get String.eqb Ascii.eqb Bool.eqb fst snd
         is_undef app].
    rewrite (array_of_strings_passes (missing_fields r) "missing_fields"), Hc.
    reflexivity. }
  unfold parseSurvey. destruct (parse_attempt inp isOcr) as [a|msg].
  - eexists. split; [reflexivity|]. apply H. cbn [confidence].
    unfold calculateConfidence. cbv zeta. apply clamp01_bounds.
  - eexists. split; [reflexivity|]. apply H. cbn [confidence]. split; by vm_compute.
Qed.

(** X30.  The three schema checks of the pipeline always pass.  The result
    of [parseSurvey] (answers an object, missing fields an array of strings,
    confidence a number of [0, 1]), the result of [extractFactors] (factors
    an array of strings, confidence of [0, 1]) and the result of
    [classifyRisk] (level one of the four names, score of [0, 100],
    rationale an array of strings) are valid for their schemas, with an
    empty error list. *)
Theorem service_results_conform (inp : input) (isOcr : bool) :
  (exists r, parseSurvey inp isOcr = Ret r
     /\ validateSchema (parse_object r) parseResponse = passes)
  /\ (forall ans, validateSchema (factor_object (extractFactors ans)) factorResponse = passes)
  /\ (forall fs ans, validateSchema (risk_object (classifyRisk fs ans)) riskResponse = passes).
Proof.
  split; [apply parse_result_conforms|].
  split; [apply factor_result_conforms|apply risk_result_conforms].
Qed.

End WithEngine.

Lemma validateSchema_sound_witness :
  isValid (validateSchema (engine := strict_engine)
             [("risk_level", JStr "low"); ("score", JNum (of_Z 7)); ("rationale", JArr [])]
             riskResponse) = true
  /\ conforms (JNum (of_Z 7)) (ranged 0 100).
Proof.
  assert (H : isValid (validateSchema (engine := strict_engine)
             [("risk_level", JStr "low"); ("score", JNum (of_Z 7)); ("rationale", JArr [])]
             riskResponse) = true) by reflexivity.
  split; [exact H|].
  apply (proj2 (validateSchema_sound (engine := strict_engine) _ _ H)
           _ "score" (ranged 0 100) eq_refl).
  simpl. tauto.
Defined.

End SchemaProperties.
